(** * Verification of [notebooks/evaluate.py]

    A shallow embedding of the stress-signal evaluation script: the segment
    builder [create_segments] and the evaluation driver
    [plot_physiological_signals] / [evaluate], with the properties of the
    specification stated and proved over it. *)

From Stdlib Require Import ZArith Floats Lia Sorted.
From stdpp Require Import gmap strings list.

Set Warnings "-inexact-float".

Local Open Scope Z_scope.

(** ** Segment builder *)

Module Segments.

(** The two values of the ["color"] entry of a segment. *)
Inductive colour := blue | red.

Definition colour_eqb (a b : colour) : bool :=
  match a, b with
  | blue, blue | red, red => true
  | _, _ => false
  end.

(** A segment is the dict [{"x": [...], "y": [...], "color": ...}]. *)
Record segment (V : Type) := mkSegment {
  seg_x : list Z;
  seg_y : list V;
  seg_color : colour
}.
Arguments mkSegment {V} _ _ _.
Arguments seg_x {V} _.
Arguments seg_y {V} _.
Arguments seg_color {V} _.

(** [start <= t < end] for one [(start, end)] pair. *)
Definition in_period (t : Z) (p : Z * Z) : bool :=
  let '(start, end_) := p in (start <=? t) && (t <? end_).

(** [any(start <= t < end for start, end in stress_periods)] *)
Definition in_stress (t : Z) (stress_periods : list (Z * Z)) : bool :=
  existsb (in_period t) stress_periods.

(** Truthiness of a Python list: non-empty. *)
Definition truthy {A} (l : list A) : bool :=
  match l with [] => false | _ => true end.

Section Builder.
Context {V : Type}.

(** One iteration of the [for t, v in zip(...)] loop, on the pair of the
    [segments] list and the [current_segment] dict. *)
Definition loop_body (stress_periods : list (Z * Z))
    (st : list (segment V) * segment V) (tv : Z * V)
    : list (segment V) * segment V :=
  let '(segments, current_segment) := st in
  let '(t, v) := tv in
  let color := if in_stress t stress_periods then red else blue in
  let '(segments, current_segment) :=
    if negb (colour_eqb color (seg_color current_segment))
       && truthy (seg_x current_segment)
    then (segments ++ [current_segment], mkSegment [] [] color)
    else (segments, current_segment) in
  (segments,
   mkSegment (seg_x current_segment ++ [t]) (seg_y current_segment ++ [v]) color).

Definition create_segments (time_indices : list Z) (values : list V)
    (stress_periods : list (Z * Z)) : list (segment V) :=
  let '(segments, current_segment) :=
    fold_left (loop_body stress_periods) (combine time_indices values)
              ([], mkSegment [] [] blue) in
  if truthy (seg_x current_segment)
  then segments ++ [current_segment]
  else segments.

(** The (time, value) samples one segment carries. *)
Definition samples (s : segment V) : list (Z * V) :=
  combine (seg_x s) (seg_y s).

(** Colour a sample at time [t] gets. *)
Definition classify (I : list (Z * Z)) (t : Z) : colour :=
  if in_stress t I then red else blue.

(** No two neighbours of a colour list are equal. *)
Fixpoint alternating (l : list colour) : Prop :=
  match l with
  | a :: (b :: _) as tl => a ≠ b ∧ alternating tl
  | _ => True
  end.

(** What holds of every emitted segment. *)
Record seg_ok (I : list (Z * Z)) (s : segment V) : Prop := {
  ok_nonempty : seg_x s ≠ [];
  ok_aligned : length (seg_x s) = length (seg_y s);
  ok_uniform : Forall (λ t, classify I t = seg_color s) (seg_x s)
}.

(** The segments the loop has produced so far, the open one included. *)
Definition emitted (st : list (segment V) * segment V) : list (segment V) :=
  if truthy (seg_x (snd st)) then fst st ++ [snd st] else fst st.

(** Loop invariant after the samples [done] have been consumed. *)
Record loop_inv (I : list (Z * Z)) (done : list (Z * V))
    (st : list (segment V) * segment V) : Prop := {
  inv_samples : flat_map samples (emitted st) = done;
  inv_ok : Forall (seg_ok I) (emitted st);
  inv_alt : alternating (map seg_color (emitted st));
  inv_fresh : seg_x (snd st) = [] → fst st = [] ∧ seg_y (snd st) = []
}.

End Builder.

(** The number of neighbouring pairs of a colour list that differ. *)
Fixpoint changes (l : list colour) : nat :=
  match l with
  | a :: (b :: _) as tl => ((if colour_eqb a b then 0 else 1) + changes tl)%nat
  | _ => 0%nat
  end.

End Segments.

(** ** Evaluation driver *)

Module Driver.
Import Segments.

Local Open Scope string_scope.
Local Open Scope list_scope.

(** *** Values *)

(** A flat channel array and its reshaped form of shape [(n, w, 1)]. *)
Definition channel := list float.
Definition tensor := list (list (list float)).

(** A raised Python exception: its class and its message. *)
Record exn := Raise { exn_class : string; exn_msg : string }.

Definition ValueError (msg : string) : exn := Raise "ValueError" msg.
Definition KeyError (key : string) : exn := Raise "KeyError" key.

Inductive result (A : Type) :=
| Ok (a : A)
| Err (e : exn).
Arguments Ok {A} _.
Arguments Err {A} _.

(** [go.Scatter(x=..., y=..., mode=..., name=..., line=dict(color=...),
    showlegend=...)] *)
Record scatter := Scatter {
  sc_x : list Z;
  sc_y : channel;
  sc_mode : string;
  sc_name : string;
  sc_line_color : string;
  sc_showlegend : bool
}.

(** The keyword arguments of one [fig.add_shape] call. *)
Record shape := Shape {
  sh_type : string;
  sh_x0 : Z;
  sh_x1 : Z;
  sh_y0 : Z;
  sh_y1 : Z;
  sh_xref : string;
  sh_yref : string;
  sh_fillcolor : string;
  sh_line_width : Z
}.

(** The keyword arguments of [fig.update_layout]. *)
Record layout := Layout {
  title : string;
  xaxis_title : string;
  yaxis_title : string;
  legend_title : string;
  template : string
}.

(** A Plotly figure: its traces and shapes in the order added, its layout. *)
Record figure := mkFigure {
  fig_traces : list scatter;
  fig_shapes : list shape;
  fig_layout : option layout
}.

(** *** Collaborators and effects *)

(** What the run does to the outside, in program order. *)
Inductive event :=
| EvLiveEnter
| EvLiveExit
| EvFileOpen (path : string)
| EvPickleLoad (path : string)
| EvFileClose (path : string)
| EvReshape (key : string) (window : nat)
| EvPredict (inputs : list tensor)
| EvLogPlot (template_name : string) (y_true y_pred : list Z) (name : string)
| EvWriteImage (fig : figure) (path : string)
| EvLogImage (name path : string)
| EvLoadModel (path : string)
| EvPrint (text : string).

(** The object [load_model] returns. *)
Record model := {
  predict : list tensor → result (list (list float));
  summary : string
}.

(** The outcome of every call that leaves the script: the files, the
    tracking session, the image writer, the model loader. Each one either
    returns or raises. *)
Record world := {
  live_enter : result unit;
  file_open : string → result unit;
  unpickle_features : string → result (gmap string channel);
  unpickle_labels : string → result (list Z);
  log_plot : list Z → list Z → string → result unit;
  write_image : figure → string → result unit;
  log_image : string → string → result unit;
  load_model : string → result model
}.

(** The names bound at module level that the functions below can look up.
    Line 12 binds [create_segments]. *)
Record globals := {
  g_create_segments :
    list Z → channel → list (Z * Z) → list (segment float)
}.

(** A computation extends the trace of events and returns or raises. *)
Definition io (A : Type) : Type := list event → list event * result A.

#[export] Instance io_ret : MRet io := λ A a tr, (tr, Ok a).

#[export] Instance io_bind : MBind io := λ A B k m tr,
  match m tr with
  | (tr', Ok a) => k a tr'
  | (tr', Err e) => (tr', Err e)
  end.

Definition emit (e : event) : io unit := λ tr, (tr ++ [e], Ok tt).

Definition raise {A} (e : exn) : io A := λ tr, (tr, Err e).

Definition lift {A} (r : result A) : io A := λ tr, (tr, r).

(** [with enter as r: body], for a context manager whose [__exit__]
    does not swallow the exception: [exit] runs however [body] ends. *)
Definition with_ {R A} (enter : io R) (exit : io unit) (body : R → io A) : io A :=
  λ tr,
    match enter tr with
    | (tr1, Err e) => (tr1, Err e)
    | (tr1, Ok r) =>
        let '(tr2, res) := body r tr1 in
        (fst (exit tr2), res)
    end.

Definition run {A} (m : io A) : list event * result A := m [].

(** Kinds of events. *)
Definition is_session (e : event) : bool :=
  match e with EvLiveEnter | EvLiveExit => true | _ => false end.

Definition is_log (e : event) : bool :=
  match e with EvLogPlot _ _ _ _ | EvLogImage _ _ => true | _ => false end.

Definition is_reshape (e : event) : bool :=
  match e with EvReshape _ _ => true | _ => false end.

Definition is_predict (e : event) : bool :=
  match e with EvPredict _ => true | _ => false end.

(** *** numpy *)

(** The rows of a flat array cut into [n] windows of [w] entries. *)
Fixpoint windows {A} (n w : nat) (l : list A) : list (list A) :=
  match n with
  | O => []
  | S n => take w l :: windows n w (drop w l)
  end.

(** [np.array(a).reshape(-1, w, 1)] on a flat array, for [w > 0]: the size
    has to be a multiple of [w]. *)
Definition np_reshape (a : channel) (w : nat) : result tensor :=
  if (length a mod w =? 0)%nat
  then Ok (map (map (λ v, [v])) (windows (length a / w) w a))
  else Err (ValueError "cannot reshape array").

(** [np.arange(n).tolist()] *)
Definition arange (n : nat) : list Z := map Z.of_nat (seq 0 n).

(** [a > c], elementwise on a 2-d array. *)
Definition greater (a : list (list float)) (c : float) : list (list bool) :=
  map (map (λ p, PrimFloat.ltb c p)) a.

(** [.astype(int)] on a boolean array. *)
Definition astype_int (a : list (list bool)) : list (list Z) :=
  map (map (λ b : bool, if b then 1 else 0)) a.

(** [.flatten()] on a 2-d array, row by row. *)
Definition flatten {A} (a : list (list A)) : list A := concat a.

(** [enumerate(l)] *)
Fixpoint enumerate_from {A} (i : Z) (l : list A) : list (Z * A) :=
  match l with
  | [] => []
  | a :: l => (i, a) :: enumerate_from (i + 1) l
  end.

Definition enumerate {A} (l : list A) : list (Z * A) := enumerate_from 0 l.

(** *** The script *)

(** Line 60: [(y_pred_probs > 0.5).astype(int).flatten()] *)
Definition binarize (y_pred_probs : list (list float)) : list Z :=
  flatten (astype_int (greater y_pred_probs 0.5%float)).

(** Lines 68 and 69:
    [[(i * 8, (i + 1) * 8) for i, label in enumerate(labels) if label == 1]] *)
Definition stress_periods_of (labels : list Z) : list (Z * Z) :=
  flat_map (λ '(i, label), if (label =? 1)%Z then [(i * 8, (i + 1) * 8)] else [])
           (enumerate labels).

(** The interval the comprehension builds for the window index [i]. *)
Definition interval_of (i : nat) : Z * Z := (Z.of_nat i * 8, (Z.of_nat i + 1) * 8).

Definition required_keys : list string := ["EDA"; "TEMP"; "BVP"; "ACC"].

Definition missing_key_message (key : string) : string :=
  "Missing required key '" +:+ key +:+ "' in x_test pickle file.".

(** Lines 43 to 45. *)
Fixpoint check_keys (keys : list string) (x_test : gmap string channel) : io unit :=
  match keys with
  | [] => mret tt
  | key :: keys =>
      match x_test !! key with
      | None => raise (ValueError (missing_key_message key))
      | Some _ => check_keys keys x_test
      end
  end.

(** [d[key]] on a dict. *)
Definition getitem {A} (d : gmap string A) (key : string) : io A :=
  match d !! key with
  | Some a => mret a
  | None => raise (KeyError key)
  end.

(** [d[key]] on a dict literal, kept in the order it was written. *)
Definition getitem_lit {A} (d : list (string * A)) (key : string) : io A :=
  match list_find (λ kv, fst kv = key) d with
  | Some (_, (_, a)) => mret a
  | None => raise (KeyError key)
  end.

(** [with open(path, "rb") as f: return load(f)] *)
Definition with_open {A} (W : world) (path : string) (load : result A) : io A :=
  with_ (lift (file_open W path) ;; emit (EvFileOpen path))
        (emit (EvFileClose path))
        (λ _, emit (EvPickleLoad path) ;; lift load).

(** [np.array(a).reshape(-1, w, 1)] for the entry [key] of [data_dict]. *)
Definition reshape (key : string) (a : channel) (w : nat) : io tensor :=
  emit (EvReshape key w) ;; lift (np_reshape a w).

(** Lines 86 to 96 and 100 to 110: one background rectangle. *)
Definition rect (fillcolor : string) (p : Z * Z) : shape :=
  let '(start, end_) := p in
  Shape "rect" start end_ 0 1 "x" "paper" fillcolor 0.

Definition add_trace (fig : figure) (t : scatter) : figure :=
  mkFigure (fig_traces fig ++ [t]) (fig_shapes fig) (fig_layout fig).

Definition add_shape (fig : figure) (s : shape) : figure :=
  mkFigure (fig_traces fig) (fig_shapes fig ++ [s]) (fig_layout fig).

Definition update_layout (fig : figure) (l : layout) : figure :=
  mkFigure (fig_traces fig) (fig_shapes fig) (Some l).

Definition plot_path : string :=
  "images/evaluation/plots/physiological_signals_plot.png".

(** Lines 35 to 126: the body of the [with Live() as live] block. *)
Definition plot_body (G : globals) (W : world) (x_test_path y_test_path : string)
    (model : model) (subject_id : string) : io figure :=
  x_test ← with_open W x_test_path (unpickle_features W x_test_path);
  y_test ← with_open W y_test_path (unpickle_labels W y_test_path);
  check_keys required_keys x_test ;;
  eda ← getitem x_test "EDA";
  temp ← getitem x_test "TEMP";
  bvp ← getitem x_test "BVP";
  acc ← getitem x_test "ACC";
  d_eda ← reshape "EDA" eda 32;
  d_temp ← reshape "TEMP" temp 32;
  d_bvp ← reshape "BVP" bvp 256;
  d_acc ← reshape "ACC" acc 256;
  let data_dict :=
    [("EDA", d_eda); ("TEMP", d_temp); ("BVP", d_bvp); ("ACC", d_acc)] in
  a1 ← getitem_lit data_dict "EDA";
  a2 ← getitem_lit data_dict "BVP";
  a3 ← getitem_lit data_dict "TEMP";
  a4 ← getitem_lit data_dict "ACC";
  emit (EvPredict [a1; a2; a3; a4]) ;;
  y_pred_probs ← lift (predict model [a1; a2; a3; a4]);
  let y_pred := binarize y_pred_probs in
  let name := "confusion_matrix subject: " +:+ subject_id in
  emit (EvLogPlot "confusion_matrix" y_test y_pred name) ;;
  lift (log_plot W y_test y_pred name) ;;
  let eda_time_indices := arange (length eda) in
  let stress_periods := stress_periods_of y_test in
  let predicted_stress_periods := stress_periods_of y_pred in
  let fig := mkFigure [] [] None in
  let fig := add_trace fig (Scatter eda_time_indices eda "lines" "EDA" "blue" true) in
  let fig := fold_left add_shape (map (rect "rgba(0,255,0,0.2)") stress_periods) fig in
  let fig :=
    fold_left add_shape (map (rect "rgba(255,0,0,0.3)") predicted_stress_periods) fig in
  let fig :=
    update_layout fig
      (Layout ("Physiological Signals with Stress Periods of subject " +:+ subject_id)
              "Time (seconds)" "Signal Value" "Signals" "plotly_white") in
  emit (EvWriteImage fig plot_path) ;;
  lift (write_image W fig plot_path) ;;
  emit (EvLogImage "physiological_signals" plot_path) ;;
  lift (log_image W "physiological_signals" plot_path) ;;
  mret fig.

(** Lines 32 to 126. *)
Definition plot_physiological_signals (G : globals) (W : world)
    (x_test_path y_test_path : string) (model : model) (subject_id : string)
    : io figure :=
  with_ (lift (live_enter W) ;; emit EvLiveEnter)
        (emit EvLiveExit)
        (λ _, plot_body G W x_test_path y_test_path model subject_id).

(** Lines 129 to 142. *)
Definition evaluate (G : globals) (W : world) : io unit :=
  let model_path := "models/best_model.h5" in
  emit (EvLoadModel model_path) ;;
  model ← lift (load_model W model_path);
  emit (EvPrint (summary model)) ;;
  plot_physiological_signals G W
    "data/results/x_test_1.pkl" "data/results/y_test_1.pkl" model "S16" ;;
  emit (EvPrint "Evaluation complete.").

(** *** Vocabulary for the statements *)

(** [m] never drops what the trace holds, and every event it adds
    satisfies [P]. *)
Definition emits {A} (P : event → Prop) (m : io A) : Prop :=
  ∀ tr, ∃ evs, fst (m tr) = tr ++ evs ∧ Forall P evs.

(** The events of a run up to the end of the loading of the two fixtures. *)
Definition prelude (x_test_path y_test_path : string) : list event :=
  [EvLiveEnter;
   EvFileOpen x_test_path; EvPickleLoad x_test_path; EvFileClose x_test_path;
   EvFileOpen y_test_path; EvPickleLoad y_test_path; EvFileClose y_test_path].

(** The reshape events of lines 51 to 56, in program order. *)
Definition reshapes : list event :=
  [EvReshape "EDA" 32; EvReshape "TEMP" 32; EvReshape "BVP" 256; EvReshape "ACC" 256].

(** Every row of a tensor is a window of [w] samples of one value each. *)
Definition windowed (w : nat) (t : tensor) : Prop :=
  Forall (λ row, length row = w ∧ Forall (λ cell, length cell = 1%nat) row) t.

(** The figure of lines 72 to 119 with its parts side by side: the one
    trace, the green then the red rectangles, the layout. *)
Definition chart (subject_id : string) (eda : channel) (y_test y_pred : list Z)
    : figure :=
  mkFigure
    [Scatter (arange (length eda)) eda "lines" "EDA" "blue" true]
    (map (rect "rgba(0,255,0,0.2)") (stress_periods_of y_test)
     ++ map (rect "rgba(255,0,0,0.3)") (stress_periods_of y_pred))
    (Some (Layout ("Physiological Signals with Stress Periods of subject "
                   +:+ subject_id)
                  "Time (seconds)" "Signal Value" "Signals" "plotly_white")).

(** The events of one [with open(path, "rb") as f: pickle.load(f)]. *)
Definition file_events (path : string) : list event :=
  [EvFileOpen path; EvPickleLoad path; EvFileClose path].

Definition is_file (e : event) : bool :=
  match e with
  | EvFileOpen _ | EvPickleLoad _ | EvFileClose _ => true
  | _ => false
  end.

(** [m] treats the trace it is given as a prefix it only extends. *)
Definition framed {A} (m : io A) : Prop :=
  ∀ tr, m tr = (tr ++ fst (m []), snd (m [])).

(** The ways a call of [plot_physiological_signals] can end: for each, what
    the collaborators answered, the trace and the result. *)
Section Exits.
Context (W : world) (x_test_path y_test_path : string) (m : model)
        (subject_id : string).

(** The session is open and both fixtures are loaded. *)
Record loaded (x_test : gmap string channel) (y_test : list Z) : Prop := {
  ld_live : live_enter W = Ok tt;
  ld_open_x : file_open W x_test_path = Ok tt;
  ld_x : unpickle_features W x_test_path = Ok x_test;
  ld_open_y : file_open W y_test_path = Ok tt;
  ld_y : unpickle_labels W y_test_path = Ok y_test
}.

(** The four channels of the feature mapping. *)
Record extracted (x_test : gmap string channel) (eda temp bvp acc : channel)
    : Prop := {
  ex_eda : x_test !! "EDA" = Some eda;
  ex_temp : x_test !! "TEMP" = Some temp;
  ex_bvp : x_test !! "BVP" = Some bvp;
  ex_acc : x_test !! "ACC" = Some acc
}.

(** The four reshapes returned. *)
Record reshaped (eda temp bvp acc : channel) (t_eda t_temp t_bvp t_acc : tensor)
    : Prop := {
  rs_eda : np_reshape eda 32 = Ok t_eda;
  rs_temp : np_reshape temp 32 = Ok t_temp;
  rs_bvp : np_reshape bvp 256 = Ok t_bvp;
  rs_acc : np_reshape acc 256 = Ok t_acc
}.

Definition log_name : string := "confusion_matrix subject: " +:+ subject_id.

Inductive plot_exit : list event → result figure → Prop :=
| exit_live e :
    live_enter W = Err e →
    plot_exit [] (Err e)
| exit_open_x e :
    live_enter W = Ok tt → file_open W x_test_path = Err e →
    plot_exit [EvLiveEnter; EvLiveExit] (Err e)
| exit_load_x e :
    live_enter W = Ok tt → file_open W x_test_path = Ok tt →
    unpickle_features W x_test_path = Err e →
    plot_exit ([EvLiveEnter] ++ file_events x_test_path ++ [EvLiveExit]) (Err e)
| exit_open_y x_test e :
    live_enter W = Ok tt → file_open W x_test_path = Ok tt →
    unpickle_features W x_test_path = Ok x_test →
    file_open W y_test_path = Err e →
    plot_exit ([EvLiveEnter] ++ file_events x_test_path ++ [EvLiveExit]) (Err e)
| exit_load_y x_test e :
    live_enter W = Ok tt → file_open W x_test_path = Ok tt →
    unpickle_features W x_test_path = Ok x_test →
    file_open W y_test_path = Ok tt →
    unpickle_labels W y_test_path = Err e →
    plot_exit (prelude x_test_path y_test_path ++ [EvLiveExit]) (Err e)
| exit_key x_test y_test key :
    loaded x_test y_test → key ∈ required_keys → x_test !! key = None →
    plot_exit (prelude x_test_path y_test_path ++ [EvLiveExit])
              (Err (ValueError (missing_key_message key)))
| exit_reshape_eda x_test y_test eda temp bvp acc e :
    loaded x_test y_test → extracted x_test eda temp bvp acc →
    np_reshape eda 32 = Err e →
    plot_exit (prelude x_test_path y_test_path
               ++ [EvReshape "EDA" 32; EvLiveExit]) (Err e)
| exit_reshape_temp x_test y_test eda temp bvp acc t_eda e :
    loaded x_test y_test → extracted x_test eda temp bvp acc →
    np_reshape eda 32 = Ok t_eda → np_reshape temp 32 = Err e →
    plot_exit (prelude x_test_path y_test_path
               ++ [EvReshape "EDA" 32; EvReshape "TEMP" 32; EvLiveExit]) (Err e)
| exit_reshape_bvp x_test y_test eda temp bvp acc t_eda t_temp e :
    loaded x_test y_test → extracted x_test eda temp bvp acc →
    np_reshape eda 32 = Ok t_eda → np_reshape temp 32 = Ok t_temp →
    np_reshape bvp 256 = Err e →
    plot_exit (prelude x_test_path y_test_path
               ++ [EvReshape "EDA" 32; EvReshape "TEMP" 32; EvReshape "BVP" 256;
                   EvLiveExit]) (Err e)
| exit_reshape_acc x_test y_test eda temp bvp acc t_eda t_temp t_bvp e :
    loaded x_test y_test → extracted x_test eda temp bvp acc →
    np_reshape eda 32 = Ok t_eda → np_reshape temp 32 = Ok t_temp →
    np_reshape bvp 256 = Ok t_bvp → np_reshape acc 256 = Err e →
    plot_exit (prelude x_test_path y_test_path ++ reshapes ++ [EvLiveExit]) (Err e)
| exit_predict x_test y_test eda temp bvp acc t_eda t_temp t_bvp t_acc e :
    loaded x_test y_test → extracted x_test eda temp bvp acc →
    reshaped eda temp bvp acc t_eda t_temp t_bvp t_acc →
    predict m [t_eda; t_bvp; t_temp; t_acc] = Err e →
    plot_exit (prelude x_test_path y_test_path ++ reshapes
               ++ [EvPredict [t_eda; t_bvp; t_temp; t_acc]; EvLiveExit]) (Err e)
| exit_log_plot x_test y_test eda temp bvp acc t_eda t_temp t_bvp t_acc probs e :
    loaded x_test y_test → extracted x_test eda temp bvp acc →
    reshaped eda temp bvp acc t_eda t_temp t_bvp t_acc →
    predict m [t_eda; t_bvp; t_temp; t_acc] = Ok probs →
    log_plot W y_test (binarize probs) log_name = Err e →
    plot_exit (prelude x_test_path y_test_path ++ reshapes
               ++ [EvPredict [t_eda; t_bvp; t_temp; t_acc];
                   EvLogPlot "confusion_matrix" y_test (binarize probs) log_name;
                   EvLiveExit]) (Err e)
| exit_write_image x_test y_test eda temp bvp acc t_eda t_temp t_bvp t_acc probs e :
    loaded x_test y_test → extracted x_test eda temp bvp acc →
    reshaped eda temp bvp acc t_eda t_temp t_bvp t_acc →
    predict m [t_eda; t_bvp; t_temp; t_acc] = Ok probs →
    log_plot W y_test (binarize probs) log_name = Ok tt →
    write_image W (chart subject_id eda y_test (binarize probs)) plot_path = Err e →
    plot_exit (prelude x_test_path y_test_path ++ reshapes
               ++ [EvPredict [t_eda; t_bvp; t_temp; t_acc];
                   EvLogPlot "confusion_matrix" y_test (binarize probs) log_name;
                   EvWriteImage (chart subject_id eda y_test (binarize probs)) plot_path;
                   EvLiveExit]) (Err e)
| exit_log_image x_test y_test eda temp bvp acc t_eda t_temp t_bvp t_acc probs e :
    loaded x_test y_test → extracted x_test eda temp bvp acc →
    reshaped eda temp bvp acc t_eda t_temp t_bvp t_acc →
    predict m [t_eda; t_bvp; t_temp; t_acc] = Ok probs →
    log_plot W y_test (binarize probs) log_name = Ok tt →
    write_image W (chart subject_id eda y_test (binarize probs)) plot_path = Ok tt →
    log_image W "physiological_signals" plot_path = Err e →
    plot_exit (prelude x_test_path y_test_path ++ reshapes
               ++ [EvPredict [t_eda; t_bvp; t_temp; t_acc];
                   EvLogPlot "confusion_matrix" y_test (binarize probs) log_name;
                   EvWriteImage (chart subject_id eda y_test (binarize probs)) plot_path;
                   EvLogImage "physiological_signals" plot_path;
                   EvLiveExit]) (Err e)
| exit_end x_test y_test eda temp bvp acc t_eda t_temp t_bvp t_acc probs :
    loaded x_test y_test → extracted x_test eda temp bvp acc →
    reshaped eda temp bvp acc t_eda t_temp t_bvp t_acc →
    predict m [t_eda; t_bvp; t_temp; t_acc] = Ok probs →
    log_plot W y_test (binarize probs) log_name = Ok tt →
    write_image W (chart subject_id eda y_test (binarize probs)) plot_path = Ok tt →
    log_image W "physiological_signals" plot_path = Ok tt →
    plot_exit (prelude x_test_path y_test_path ++ reshapes
               ++ [EvPredict [t_eda; t_bvp; t_temp; t_acc];
                   EvLogPlot "confusion_matrix" y_test (binarize probs) log_name;
                   EvWriteImage (chart subject_id eda y_test (binarize probs)) plot_path;
                   EvLogImage "physiological_signals" plot_path;
                   EvLiveExit])
              (Ok (chart subject_id eda y_test (binarize probs))).

End Exits.

End Driver.

(** ** Concrete runs *)

Module Examples.
Import Segments Driver.

Local Open Scope string_scope.
Local Open Scope list_scope.

(** A channel of [n] samples of the same value. *)
Definition flat (n : nat) (v : float) : channel := replicate n v.

(** A feature mapping of two windows per channel. *)
Definition x_test_full : gmap string channel :=
  <["EDA" := flat 64 0.25%float]> (<["TEMP" := flat 64 36.5%float]>
    (<["BVP" := flat 512 0.5%float]> (<["ACC" := flat 512 1%float]> ∅))).

(** The same mapping without its [ACC] entry. *)
Definition x_test_no_acc : gmap string channel :=
  <["EDA" := flat 64 0.25%float]> (<["TEMP" := flat 64 36.5%float]>
    (<["BVP" := flat 512 0.5%float]> ∅)).

(** The tensor a reshape returns, for data of a fitting size. *)
Definition tensor_of (a : channel) (w : nat) : tensor :=
  match np_reshape a w with
  | Ok t => t
  | Err _ => []
  end.

(** A model that answers every call with the same scores. *)
Definition constant_model (scores : list (list float)) : model :=
  {| predict := λ _, Ok scores; summary := "Model: stress classifier" |}.

(** A world in which every call returns, the files holding the two given
    fixtures. *)
Definition calm_world (x_test : gmap string channel) (y_test : list Z)
    (m : model) : world :=
  {| live_enter := Ok tt;
     file_open := λ _, Ok tt;
     unpickle_features := λ _, Ok x_test;
     unpickle_labels := λ _, Ok y_test;
     log_plot := λ _ _ _, Ok tt;
     write_image := λ _ _, Ok tt;
     log_image := λ _ _, Ok tt;
     load_model := λ _, Ok m |}.

(** The module as the script defines it. *)
Definition script_globals : globals :=
  {| g_create_segments := create_segments |}.

(** A run on two windows: the labels [0, 1] and the scores [0.25, 0.75]. *)
Definition sample_model : model := constant_model [[0.25%float]; [0.75%float]].

Definition sample_world : world := calm_world x_test_full [0; 1] sample_model.

Definition sample_run : list event * result figure :=
  run (plot_physiological_signals script_globals sample_world
         "x_test.pkl" "y_test.pkl" sample_model "S16").

Definition sample_inputs : list tensor :=
  [tensor_of (flat 64 0.25%float) 32; tensor_of (flat 512 0.5%float) 256;
   tensor_of (flat 64 36.5%float) 32; tensor_of (flat 512 1%float) 256].

(** The positions, in the flat EDA array, of the samples of window [i]. *)
Definition window_positions (n i : nat) : list Z :=
  default [] (windows (n / 32) 32 (arange n) !! i).

(** A feature mapping whose EDA channel does not fill its last window. *)
Definition x_test_ragged : gmap string channel :=
  <["EDA" := flat 33 0.25%float]> x_test_full.

(** The window length of a tensor, read off its first row. *)
Definition row_length (t : tensor) : option nat := length <$> head t.

(** A model that checks the shapes of its inputs, as a network with an
    input of 32 samples, one of 256, one of 32 and one of 256 does, and
    refuses any other list of arguments. *)
Definition shape_model : model :=
  {| predict := λ inputs,
       if decide (row_length <$> inputs
                  = [Some 32; Some 256; Some 32; Some 256]%nat)
       then Ok [[0.25%float]; [0.75%float]]
       else Err (ValueError "incompatible input shapes");
     summary := "Model: stress classifier" |}.

Definition shape_world : world := calm_world x_test_full [0; 1] shape_model.

End Examples.

(** ** Facts about the segment builder *)

Section SegmentFacts.
Import Segments.
Context {V : Type}.
Implicit Types (I : list (Z * Z)) (s : segment V) (t : Z) (v : V).

Lemma colour_eqb_eq a b : colour_eqb a b = true ↔ a = b.
Proof. destruct a, b; simpl; split; congruence. Qed.

Lemma truthy_false {A} (l : list A) : truthy l = false ↔ l = [].
Proof. destruct l; simpl; split; congruence. Qed.

Lemma truthy_snoc {A} (l : list A) a : truthy (l ++ [a]) = true.
Proof. destruct l; reflexivity. Qed.

Lemma combine_snoc {A B} (l : list A) (k : list B) a b :
  length l = length k → combine (l ++ [a]) (k ++ [b]) = combine l k ++ [(a, b)].
Proof.
  revert k; induction l as [|a' l IH]; intros [|b' k] Hlen; simpl in *;
    try discriminate; [reflexivity|].
  f_equal. apply IH. congruence.
Qed.

Lemma combine_fst_snd {A B} (l : list A) (k : list B) :
  length l = length k → map fst (combine l k) = l ∧ map snd (combine l k) = k.
Proof.
  revert k; induction l as [|a l IH]; intros [|b k] Hlen; simpl in *;
    try discriminate; [done|].
  destruct (IH k) as [H1 H2]; [congruence|]. by rewrite H1, H2.
Qed.

Lemma alternating_snoc (l : list colour) a c :
  alternating (l ++ [a]) → a ≠ c → alternating (l ++ [a; c]).
Proof.
  induction l as [|b l IH]; simpl; intros Halt Hne; [tauto|].
  destruct l as [|b' l]; simpl in *; [tauto|].
  destruct Halt as [Hb Halt]. split; [exact Hb|]. apply IH; assumption.
Qed.

Lemma alternating_tail (l : list colour) a : alternating (a :: l) → alternating l.
Proof. destruct l; simpl; tauto. Qed.

Lemma loop_inv_init I : loop_inv I [] (([] : list (segment V)), mkSegment [] [] blue).
Proof. split; simpl; auto. Qed.

Lemma loop_inv_step I done st t v :
  loop_inv I done st → loop_inv I (done ++ [(t, v)]) (loop_body I st (t, v)).
Proof.
  destruct st as [segs [cx cy cc]]. intros [Hs Hok Halt Hfresh].
  unfold emitted in *. simpl in *.
  destruct (truthy cx) eqn:Hcx.
  - (* the open segment holds samples *)
    assert (Hcur : seg_ok I (mkSegment cx cy cc)).
    { apply Forall_app in Hok as [_ Hc]. by inversion Hc. }
    destruct Hcur as [Hne Hal Hun]. simpl in *.
    destruct (colour_eqb _ cc) eqn:Hc; simpl.
    + (* same colour: the sample joins the open segment *)
      apply colour_eqb_eq in Hc.
      split; unfold emitted; simpl; rewrite ?truthy_snoc.
      * rewrite !flat_map_app in *. simpl in *. rewrite !app_nil_r in *.
        unfold samples in *. simpl in *.
        rewrite combine_snoc by exact Hal. rewrite app_assoc. by rewrite Hs.
      * apply Forall_app in Hok as [Hcl _]. apply Forall_app. split; [exact Hcl|].
        constructor; [|constructor]. split; simpl.
        -- by destruct cx.
        -- rewrite !length_app. simpl. lia.
        -- apply Forall_app. split.
           ++ by rewrite Hc.
           ++ constructor; [|constructor]. reflexivity.
      * rewrite map_app in *. simpl in *. by rewrite Hc.
      * intros Habs. by destruct cx.
    + (* colour change: close the open segment, start a new one *)
      split; unfold emitted; simpl.
      * rewrite flat_map_app. simpl. by rewrite Hs.
      * apply Forall_app. split; [exact Hok|].
        constructor; [|constructor]. split; simpl; auto.
      * rewrite !map_app in *. simpl in *. rewrite <- app_assoc. simpl.
        apply alternating_snoc; [exact Halt|].
        intros ->. by rewrite (proj2 (colour_eqb_eq _ _) eq_refl) in Hc.
      * discriminate.
  - (* nothing consumed yet *)
    apply truthy_false in Hcx. destruct (Hfresh Hcx) as [-> ->]. subst cx.
    rewrite andb_false_r. simpl in *. subst done.
    split; unfold emitted; simpl; auto.
    + constructor; [|constructor]. split; simpl; auto.
    + discriminate.
Qed.

Lemma loop_inv_fold I l : ∀ done (st : list (segment V) * segment V),
  loop_inv I done st → loop_inv I (done ++ l) (fold_left (loop_body I) l st).
Proof.
  induction l as [|[t v] l IH]; intros done st Hinv; simpl.
  - by rewrite app_nil_r.
  - replace (done ++ (t, v) :: l) with ((done ++ [(t, v)]) ++ l)
      by (by rewrite <- app_assoc).
    apply IH. by apply loop_inv_step.
Qed.

Lemma create_segments_emitted (ts : list Z) (vs : list V) I :
  create_segments ts vs I
  = emitted (fold_left (loop_body I) (combine ts vs) ([], mkSegment [] [] blue)).
Proof.
  unfold create_segments, emitted.
  by destruct (fold_left _ _ _) as [segs cur].
Qed.

Lemma create_segments_inv (ts : list Z) (vs : list V) I :
  flat_map samples (create_segments ts vs I) = combine ts vs
  ∧ Forall (seg_ok I) (create_segments ts vs I)
  ∧ alternating (map seg_color (create_segments ts vs I)).
Proof.
  rewrite create_segments_emitted.
  destruct (loop_inv_fold I (combine ts vs) [] _ (loop_inv_init I)) as [H1 H2 H3 _].
  auto.
Qed.

Lemma alternating_lookup (l : list colour) (i : nat) a b :
  alternating l → l !! i = Some a → l !! S i = Some b → a ≠ b.
Proof.
  revert i; induction l as [|c l IH]; intros i Halt Ha Hb; [done|].
  destruct i as [|i]; simpl in *.
  - destruct l as [|d l]; [done|]. simpl in *.
    injection Ha as ->. injection Hb as ->. tauto.
  - apply (IH i); [by eapply alternating_tail|done..].
Qed.

Lemma samples_fst (segs : list (segment V)) :
  Forall (λ s, length (seg_x s) = length (seg_y s)) segs →
  map fst (flat_map samples segs) = concat (map seg_x segs)
  ∧ map snd (flat_map samples segs) = concat (map seg_y segs).
Proof.
  induction 1 as [|s segs Hs _ [IH1 IH2]]; simpl; [done|].
  rewrite !map_app, IH1, IH2. unfold samples.
  destruct (combine_fst_snd (seg_x s) (seg_y s) Hs) as [-> ->]. done.
Qed.

Lemma classify_in_stress I t t' :
  classify I t = classify I t' ↔ in_stress t I = in_stress t' I.
Proof.
  unfold classify. destruct (in_stress t I), (in_stress t' I); split; congruence.
Qed.

Lemma in_stress_spec I t :
  in_stress t I = true ↔ ∃ start end_, (start, end_) ∈ I ∧ start ≤ t < end_.
Proof.
  unfold in_stress. rewrite existsb_exists. split.
  - intros [[a b] [Hin Hp]]. exists a, b. simpl in Hp.
    apply andb_true_iff in Hp as [H1 H2].
    apply Z.leb_le in H1. apply Z.ltb_lt in H2.
    split; [by apply list_elem_of_In|lia].
  - intros (a & b & Hin & Hle). exists (a, b). split.
    + by apply list_elem_of_In.
    + simpl. apply andb_true_iff. split; [apply Z.leb_le|apply Z.ltb_lt]; lia.
Qed.

End SegmentFacts.

(** ** The specification's claims on the segment builder *)

Import Segments.

(** C10: on empty time and value sequences [create_segments] returns no
    segment at all; on exactly one sample it returns exactly one segment,
    which holds that sample; both for every collection of stress
    intervals. *)
Theorem create_segments_empty_and_single {V : Type} (stress_periods : list (Z * Z)) :
  create_segments (V := V) [] [] stress_periods = []
  ∧ ∀ (t : Z) (v : V),
      create_segments [t] [v] stress_periods
      = [mkSegment [t] [v] (classify stress_periods t)].
Proof.
  split; [reflexivity|]. intros t v.
  unfold create_segments, classify. simpl.
  by destruct (in_stress t stress_periods).
Qed.

(** C1: for aligned time and value sequences (empty ones included) and any
    stress intervals, the samples of the returned segments, concatenated in
    order, are the input samples: the times give back [time_indices], the
    values give back [values], nothing is dropped, repeated or reordered,
    and no segment is empty. *)
Theorem create_segments_partition {V : Type}
    (time_indices : list Z) (values : list V) (stress_periods : list (Z * Z)) :
  length time_indices = length values →
  let segments := create_segments time_indices values stress_periods in
  flat_map samples segments = combine time_indices values
  ∧ concat (map seg_x segments) = time_indices
  ∧ concat (map seg_y segments) = values
  ∧ Forall (λ s, seg_x s ≠ [] ∧ length (seg_x s) = length (seg_y s)) segments.
Proof.
  intros Hlen segments.
  destruct (create_segments_inv time_indices values stress_periods)
    as (Hflat & Hok & _). fold segments in Hflat, Hok.
  assert (Hal : Forall (λ s, length (seg_x s) = length (seg_y s)) segments).
  { eapply Forall_impl; [exact Hok|]. by intros s []. }
  destruct (samples_fst segments Hal) as [Hx Hy].
  repeat split.
  - exact Hflat.
  - rewrite <- Hx, Hflat. by apply combine_fst_snd.
  - rewrite <- Hy, Hflat. by apply combine_fst_snd.
  - eapply Forall_impl; [exact Hok|]. by intros s [].
Qed.

Lemma create_segments_partition_witness :
  let segments := create_segments [0; 1; 2; 3; 4] [10; 11; 12; 13; 14] [(1, 3)] in
  flat_map samples segments = combine [0; 1; 2; 3; 4] [10; 11; 12; 13; 14]
  ∧ concat (map seg_x segments) = [0; 1; 2; 3; 4]
  ∧ concat (map seg_y segments) = [10; 11; 12; 13; 14]
  ∧ Forall (λ s, seg_x s ≠ [] ∧ length (seg_x s) = length (seg_y s)) segments.
Proof.
  apply (create_segments_partition [0; 1; 2; 3; 4] [10; 11; 12; 13; 14] [(1, 3)]).
  reflexivity.
Defined.

(** C2: for every input, the samples of one returned segment all have the
    same stress classification (in-stress iff [start <= t < end] for some
    supplied interval), which is the one the segment's colour shows; and
    where one segment follows another, the last sample of the earlier and
    the first sample of the later are classified differently, so the sample
    at which the classification changes opens the new segment. *)
Theorem create_segments_runs {V : Type}
    (time_indices : list Z) (values : list V) (stress_periods : list (Z * Z)) :
  let segments := create_segments time_indices values stress_periods in
  (∀ t, in_stress t stress_periods = true
        ↔ ∃ start end_, (start, end_) ∈ stress_periods ∧ start ≤ t < end_)
  ∧ (∀ s t t', s ∈ segments → t ∈ seg_x s → t' ∈ seg_x s →
       in_stress t stress_periods = in_stress t' stress_periods
       ∧ seg_color s = (if in_stress t stress_periods then red else blue))
  ∧ (∀ (i : nat) s1 s2, segments !! i = Some s1 → segments !! S i = Some s2 →
       ∃ front t1 t2 back,
         seg_x s1 = front ++ [t1] ∧ seg_x s2 = t2 :: back
         ∧ in_stress t1 stress_periods ≠ in_stress t2 stress_periods).
Proof.
  intros segments.
  destruct (create_segments_inv time_indices values stress_periods)
    as (_ & Hok & Halt). fold segments in Hok, Halt.
  rewrite Forall_forall in Hok.
  split; [intros t; apply in_stress_spec|]. split.
  - intros s t t' Hs Ht Ht'.
    destruct (Hok s Hs) as [_ _ Hun]. rewrite Forall_forall in Hun.
    pose proof (Hun t Ht) as H1. pose proof (Hun t' Ht') as H2.
    split; [|by rewrite <- H1].
    apply classify_in_stress. congruence.
  - intros i s1 s2 H1 H2.
    assert (Hne : seg_color s1 ≠ seg_color s2).
    { apply (alternating_lookup (map seg_color segments) i); [done|..];
        rewrite list_lookup_fmap; [by rewrite H1|by rewrite H2]. }
    destruct (Hok s1) as [Hn1 _ Hu1]; [by eapply list_elem_of_lookup_2|].
    destruct (Hok s2) as [Hn2 _ Hu2]; [by eapply list_elem_of_lookup_2|].
    destruct (seg_x s1) as [|a l1 _] using rev_ind; [done|].
    destruct (seg_x s2) as [|t2 back]; [done|].
    exists l1, a, t2, back. repeat split.
    apply Forall_app in Hu1 as [_ Hu1]. inversion Hu1 as [|? ? Ha _]; subst.
    inversion Hu2 as [|? ? Hb _]; subst.
    intros Heq. apply Hne. rewrite <- Ha, <- Hb. by apply classify_in_stress.
Qed.

Lemma create_segments_runs_witness :
  ∃ front t1 t2 back,
    [0; 1] = front ++ [t1] ∧ [2; 3] = t2 :: back
    ∧ in_stress t1 [(2, 4)] ≠ in_stress t2 [(2, 4)].
Proof.
  exact (proj2 (proj2 (create_segments_runs [0; 1; 2; 3; 4] [10; 11; 12; 13; 14] [(2, 4)]))
           0%nat (mkSegment [0; 1] [10; 11] blue) (mkSegment [2; 3] [12; 13] red)
           eq_refl eq_refl).
Defined.

(** ** Facts about the evaluation driver *)

Import Driver.

Section DriverFacts.
Local Open Scope string_scope.
Local Open Scope list_scope.

Lemma enumerate_from_app {A} (l k : list A) (i : Z) :
  enumerate_from i (l ++ k)
  = enumerate_from i l ++ enumerate_from (i + Z.of_nat (length l)) k.
Proof.
  revert i; induction l as [|a l IH]; intros i; simpl.
  - by rewrite Z.add_0_r.
  - rewrite IH. do 3 f_equal. lia.
Qed.

Lemma filter_agree {A} (P Q : A → Prop) `{∀ x, Decision (P x)} `{∀ x, Decision (Q x)}
    (l : list A) :
  Forall (λ x, P x ↔ Q x) l → filter P l = filter Q l.
Proof.
  induction 1 as [|x l Hx _ IH]; [done|].
  rewrite !filter_cons, IH.
  destruct (decide (P x)), (decide (Q x)); tauto.
Qed.

Lemma stress_periods_of_filter (labels : list Z) :
  stress_periods_of labels
  = map interval_of (filter (λ i, labels !! i = Some 1) (seq 0 (length labels))).
Proof.
  unfold stress_periods_of, enumerate.
  induction labels as [|a l IH] using rev_ind; [done|].
  rewrite enumerate_from_app, flat_map_app, IH, length_app. simpl.
  rewrite Nat.add_1_r, seq_S, filter_app, map_app. simpl. f_equal.
  - f_equal. apply filter_agree, Forall_seq. intros j Hj.
    by rewrite lookup_app_l by lia.
  - rewrite app_nil_r, filter_cons, filter_nil.
    rewrite list_lookup_middle by done.
    destruct (Z.eqb_spec a 1) as [->|Hne].
    + by rewrite decide_True.
    + rewrite decide_False; [done|congruence].
Qed.

Lemma binarize_concat (probs : list (list float)) :
  binarize probs
  = map (λ p, if PrimFloat.ltb 0.5 p then 1 else 0) (concat probs).
Proof.
  unfold binarize, flatten, astype_int, greater.
  induction probs as [|row probs IH]; simpl; [done|].
  rewrite IH, map_app. f_equal. by rewrite map_map.
Qed.

Lemma check_keys_missing (keys : list string) (x_test : gmap string channel) :
  (∃ key, key ∈ keys ∧ x_test !! key = None) →
  ∃ before key after,
    keys = before ++ key :: after
    ∧ Forall (λ k, is_Some (x_test !! k)) before
    ∧ x_test !! key = None
    ∧ ∀ tr, check_keys keys x_test tr
            = (tr, Err (ValueError (missing_key_message key))).
Proof.
  induction keys as [|k keys IH]; intros (key & Hin & Hnone).
  - by apply elem_of_nil in Hin.
  - destruct (x_test !! k) as [a|] eqn:Hk.
    + apply elem_of_cons in Hin as [->|Hin]; [congruence|].
      destruct IH as (before & key' & after & -> & Hb & Hn & Hrun); [by eauto|].
      exists (k :: before), key', after. repeat split; [|done|].
      * constructor; [by rewrite Hk|done].
      * intros tr. simpl. by rewrite Hk.
    + exists [], k, keys. repeat split; [done..|].
      intros tr. simpl. by rewrite Hk.
Qed.

(** *** What a computation adds to the trace *)

Lemma emits_ret {A} P (a : A) : emits P (mret a).
Proof. intros tr. exists []. by rewrite app_nil_r. Qed.

Lemma emits_raise {A} P e : emits P (raise (A := A) e).
Proof. intros tr. exists []. by rewrite app_nil_r. Qed.

Lemma emits_lift {A} P (r : result A) : emits P (lift r).
Proof. intros tr. exists []. by rewrite app_nil_r. Qed.

Lemma emits_emit (P : event → Prop) e : P e → emits P (emit e).
Proof. intros He tr. exists [e]. split; [done|]. by constructor. Qed.

Lemma emits_bind {A B} P (m : io A) (k : A → io B) :
  emits P m → (∀ a, emits P (k a)) → emits P (m ≫= k).
Proof.
  intros Hm Hk tr. destruct (Hm tr) as (evs & Htr & Hevs).
  unfold mbind, io_bind. destruct (m tr) as [tr' [a|e]]; simpl in *; subst tr'.
  - destruct (Hk a (tr ++ evs)) as (evs' & -> & Hevs').
    exists (evs ++ evs'). split; [by rewrite app_assoc|by apply Forall_app].
  - by exists evs.
Qed.

Lemma emits_with {R A} P (enter : io R) (exit : io unit) (body : R → io A) :
  emits P enter → emits P exit → (∀ r, emits P (body r)) →
  emits P (with_ enter exit body).
Proof.
  intros Hen Hex Hbody tr. destruct (Hen tr) as (evs & Htr & Hevs).
  unfold with_. destruct (enter tr) as [tr1 [r|e]]; simpl in *; subst tr1.
  - destruct (Hbody r (tr ++ evs)) as (evs2 & Htr2 & Hevs2).
    destruct (body r (tr ++ evs)) as [tr2 res]; simpl in *; subst tr2.
    destruct (Hex ((tr ++ evs) ++ evs2)) as (evs3 & -> & Hevs3).
    exists (evs ++ evs2 ++ evs3). split; [by rewrite !app_assoc|].
    by repeat apply Forall_app_2.
  - by exists evs.
Qed.

Lemma emits_check_keys P keys x_test : emits P (check_keys keys x_test).
Proof.
  induction keys as [|k keys IH]; simpl; [apply emits_ret|].
  destruct (x_test !! k); [exact IH|apply emits_raise].
Qed.

Lemma emits_getitem {A} P (d : gmap string A) key : emits P (getitem d key).
Proof. unfold getitem. destruct (d !! key); [apply emits_ret|apply emits_raise]. Qed.

Lemma emits_getitem_lit {A} P (d : list (string * A)) key :
  emits P (getitem_lit d key).
Proof.
  unfold getitem_lit. destruct (list_find _ d) as [[? [? ?]]|];
    [apply emits_ret|apply emits_raise].
Qed.

(** *** The figure and the reshaped tensors *)

Lemma fold_add_shape (l : list shape) (fig : figure) :
  fold_left add_shape l fig
  = mkFigure (fig_traces fig) (fig_shapes fig ++ l) (fig_layout fig).
Proof.
  revert fig; induction l as [|s l IH]; intros [tr sh ly]; simpl.
  - by rewrite app_nil_r.
  - rewrite IH. simpl. by rewrite <- app_assoc.
Qed.

Lemma windows_rows {A} (n w : nat) (l : list A) :
  (n * w ≤ length l)%nat → Forall (λ row, length row = w) (windows n w l).
Proof.
  revert l; induction n as [|n IH]; intros l Hlen; simpl; constructor.
  - rewrite length_take. lia.
  - apply IH. rewrite length_drop. lia.
Qed.

Lemma np_reshape_windowed (a : channel) (w : nat) (t : tensor) :
  np_reshape a w = Ok t → windowed w t.
Proof.
  unfold np_reshape, windowed. case_match; [|done]. intros [= <-].
  apply Forall_fmap.
  eapply Forall_impl; [apply (windows_rows (length a / w) w a)|].
  - rewrite Nat.mul_comm. apply Nat.Div0.mul_div_le.
  - intros row Hrow. simpl. rewrite length_map. split; [done|].
    apply Forall_fmap. by apply Forall_true.
Qed.

Ltac emits_step :=
  first
    [ apply emits_ret | apply emits_raise | apply emits_lift
    | apply emits_check_keys | apply emits_getitem | apply emits_getitem_lit
    | apply emits_emit; reflexivity
    | apply emits_with | apply emits_bind | intro | progress cbv zeta ].

Lemma plot_body_no_session G W x_test_path y_test_path model subject_id :
  emits (λ e, is_session e = false)
        (plot_body G W x_test_path y_test_path model subject_id).
Proof. unfold plot_body, with_open, reshape. repeat emits_step. Qed.

(** *** Every way a run can go *)


End DriverFacts.

(** ** The specification's claims on the evaluation driver *)

(** C3: the derived stress intervals of a label sequence are exactly the
    intervals [[i*8, (i+1)*8)] of the indices [i] whose label is 1, in
    increasing order of [i]; the labels [0,1,0,1] give [(8,16),(24,32)]. *)
Theorem stress_periods_of_labels :
  (∀ labels : list Z,
     stress_periods_of labels
     = map (λ i : nat, (Z.of_nat i * 8, (Z.of_nat i + 1) * 8))
           (filter (λ i, labels !! i = Some 1) (seq 0 (length labels))))
  ∧ stress_periods_of [0; 1; 0; 1] = [(8, 16); (24, 32)].
Proof.
  split; [intros labels; apply stress_periods_of_filter|reflexivity].
Qed.

(** C5: binarization gives 1 for a score strictly greater than 0.5 and 0 for
    any other score, 0.5 itself included; the scores 0.4, 0.5, 0.6 give
    0, 0, 1. *)
Theorem binarize_threshold :
  (∀ scores : list float,
     binarize (map (λ p, [p]) scores)
     = map (λ p, if PrimFloat.ltb 0.5 p then 1 else 0) scores)
  ∧ binarize [[0.5%float]] = [0]
  ∧ binarize [[0.4%float]; [0.5%float]; [0.6%float]] = [0; 0; 1].
Proof.
  split; [|split; reflexivity].
  intros scores. rewrite binarize_concat. f_equal.
  induction scores as [|p scores IH]; simpl; congruence.
Qed.

(** C4: once both fixtures are loaded, a feature mapping that lacks one of
    the four required keys makes the driver raise the [ValueError] whose
    message names the first missing key; by then the run has only opened
    the session and read the two files, so no reshape and no inference call
    has taken place, and the exception leaves the driver at once. *)
Theorem missing_key_raises (G : globals) (W : world) (x_test_path y_test_path : string)
    (model : model) (subject_id : string)
    (x_test : gmap string channel) (y_test : list Z) :
  live_enter W = Ok tt →
  file_open W x_test_path = Ok tt →
  unpickle_features W x_test_path = Ok x_test →
  file_open W y_test_path = Ok tt →
  unpickle_labels W y_test_path = Ok y_test →
  (∃ key, key ∈ required_keys ∧ x_test !! key = None) →
  ∃ before key after,
    required_keys = before ++ key :: after
    ∧ Forall (λ k, is_Some (x_test !! k)) before
    ∧ x_test !! key = None
    ∧ run (plot_physiological_signals G W x_test_path y_test_path model subject_id)
      = ([EvLiveEnter;
          EvFileOpen x_test_path; EvPickleLoad x_test_path; EvFileClose x_test_path;
          EvFileOpen y_test_path; EvPickleLoad y_test_path; EvFileClose y_test_path;
          EvLiveExit],
         Err (Raise "ValueError"
                ("Missing required key '" +:+ key +:+ "' in x_test pickle file.")))
    ∧ Forall (λ e, is_reshape e = false ∧ is_predict e = false)
        (fst (run (plot_physiological_signals
                     G W x_test_path y_test_path model subject_id))).
Proof.
  intros Hlive Hox Hx Hoy Hy Hmiss.
  destruct (check_keys_missing required_keys x_test Hmiss)
    as (before & key & after & Hkeys & Hbefore & Hnone & Hrun).
  exists before, key, after.
  assert (Heq : run (plot_physiological_signals
                       G W x_test_path y_test_path model subject_id)
                = ([EvLiveEnter;
                    EvFileOpen x_test_path; EvPickleLoad x_test_path;
                    EvFileClose x_test_path;
                    EvFileOpen y_test_path; EvPickleLoad y_test_path;
                    EvFileClose y_test_path;
                    EvLiveExit],
                   Err (ValueError (missing_key_message key)))).
  { unfold run, plot_physiological_signals, plot_body, with_open, with_, lift, emit,
      mbind, io_bind.
    rewrite Hlive, Hox, Hx, Hoy, Hy. simpl. by rewrite Hrun. }
  repeat split; [done..|exact Heq|].
  rewrite Heq. simpl. repeat constructor.
Qed.

(** C9: the tracking session brackets the whole call. Either the session
    could not be opened, and then nothing was logged; or the trace of the
    call is the opening of the session, then events none of which opens or
    closes it, then its closing as the very last event, whether the call
    returns or raises; every log operation of the trace (the
    confusion-matrix log, the image log) is one of the events in between. *)
Theorem tracking_session_scoped (G : globals) (W : world)
    (x_test_path y_test_path : string) (model : model) (subject_id : string) :
  let r := run (plot_physiological_signals G W x_test_path y_test_path model subject_id) in
  (∃ e, live_enter W = Err e ∧ r = ([], Err e))
  ∨ (∃ body,
       live_enter W = Ok tt
       ∧ fst r = [EvLiveEnter] ++ body ++ [EvLiveExit]
       ∧ Forall (λ ev, is_session ev = false) body
       ∧ Forall (λ ev, is_log ev = true → ev ∈ body) (fst r)).
Proof.
  unfold run, plot_physiological_signals, with_, lift, emit, mbind, io_bind.
  destruct (live_enter W) as [[]|e]; simpl; [right|left; by exists e].
  destruct (plot_body_no_session G W x_test_path y_test_path model subject_id
              [EvLiveEnter]) as (body & Hbody & Hno).
  destruct (plot_body _ _ _ _ _ _ _) as [tr res]. simpl in *. subst tr.
  exists body. split; [reflexivity|]. split; [reflexivity|]. split; [exact Hno|].
  constructor; [discriminate|]. apply Forall_app. split.
  - apply Forall_forall. auto.
  - constructor; [discriminate|constructor].
Qed.

Lemma missing_key_raises_witness :
  ∃ before key after,
    required_keys = before ++ key :: after
    ∧ Forall (λ k, is_Some (Examples.x_test_no_acc !! k)) before
    ∧ Examples.x_test_no_acc !! key = None
    ∧ run (plot_physiological_signals Examples.script_globals
             (Examples.calm_world Examples.x_test_no_acc [0; 1]
                (Examples.constant_model [[0.25%float]; [0.75%float]]))
             "x_test.pkl" "y_test.pkl"
             (Examples.constant_model [[0.25%float]; [0.75%float]]) "S16")
      = ([EvLiveEnter;
          EvFileOpen "x_test.pkl"; EvPickleLoad "x_test.pkl"; EvFileClose "x_test.pkl";
          EvFileOpen "y_test.pkl"; EvPickleLoad "y_test.pkl"; EvFileClose "y_test.pkl";
          EvLiveExit],
         Err (Raise "ValueError"
                ("Missing required key '" +:+ key +:+ "' in x_test pickle file.")))
    ∧ Forall (λ e, is_reshape e = false ∧ is_predict e = false)
        (fst (run (plot_physiological_signals Examples.script_globals
                     (Examples.calm_world Examples.x_test_no_acc [0; 1]
                        (Examples.constant_model [[0.25%float]; [0.75%float]]))
                     "x_test.pkl" "y_test.pkl"
                     (Examples.constant_model [[0.25%float]; [0.75%float]]) "S16"))).
Proof.
  apply (missing_key_raises Examples.script_globals
           (Examples.calm_world Examples.x_test_no_acc [0; 1]
              (Examples.constant_model [[0.25%float]; [0.75%float]]))
           "x_test.pkl" "y_test.pkl"
           (Examples.constant_model [[0.25%float]; [0.75%float]]) "S16"
           Examples.x_test_no_acc [0; 1]); try reflexivity.
  exists "ACC"%string. split; [|reflexivity].
  unfold required_keys. do 3 apply list_elem_of_further. apply list_elem_of_here.
Defined.


(** C8, evaluated on a run of two windows with the labels [0, 1]: the line
    is drawn over the positions 0 to 63 of the EDA samples, the samples of
    window 1 are those at the positions 32 to 63, and the rectangle of
    window 1 spans 8 to 16: it covers none of the samples of window 1, only
    samples of window 0. *)
Theorem stress_interval_off_window :
  ∃ tr fig,
    Examples.sample_run = (tr, Ok fig)
    ∧ map sc_x (fig_traces fig) = [arange 64]
    ∧ map (λ s, (sh_x0 s, sh_x1 s)) (fig_shapes fig) = [(8, 16); (8, 16)]
    ∧ stress_periods_of [0; 1] = [interval_of 1]
    ∧ Examples.window_positions 64 1 = map Z.of_nat (seq 32 32)
    ∧ Forall (λ t, Segments.in_period t (interval_of 1) = false)
             (Examples.window_positions 64 1)
    ∧ Forall (λ t, t ∈ Examples.window_positions 64 0)
             (filter (λ t, Segments.in_period t (interval_of 1) = true) (arange 64)).
Proof.
  eexists _, _. split; [vm_compute; reflexivity|].
  repeat split; try reflexivity.
  - vm_compute. repeat constructor.
  - vm_compute. repeat constructor.
Qed.

(** ** Worked examples *)

Example create_segments_example :
  create_segments [0; 1; 2; 3; 4] [10; 11; 12; 13; 14] [(1, 3)]
  = [mkSegment [0] [10] blue; mkSegment [1; 2] [11; 12] red;
     mkSegment [3; 4] [13; 14] blue].
Proof. reflexivity. Qed.

(** [zip] stops at the shorter of its two arguments. *)
Example create_segments_unaligned :
  create_segments [0; 1; 2] [10] [(1, 3)] = [mkSegment [0] [10] blue].
Proof. reflexivity. Qed.

Example sample_run_logs :
  filter (λ e, is_log e = true) (fst Examples.sample_run)
  = [EvLogPlot "confusion_matrix" [0; 1] [0; 1] "confusion_matrix subject: S16";
     EvLogImage "physiological_signals" plot_path].
Proof. vm_compute. reflexivity. Qed.

Example evaluate_completes :
  last (fst (run (evaluate Examples.script_globals Examples.sample_world)))
  = Some (EvPrint "Evaluation complete.")
  ∧ snd (run (evaluate Examples.script_globals Examples.sample_world)) = Ok tt.
Proof. split; vm_compute; reflexivity. Qed.

(** ** Further properties of the segment builder *)

Section SegmentContract.
Context {V : Type}.
Implicit Types (I : list (Z * Z)) (s : segment V) (t : Z) (v : V).

Lemma combine_app_aligned {A B} (l l' : list A) (k k' : list B) :
  length l = length k → combine (l ++ l') (k ++ k') = combine l k ++ combine l' k'.
Proof.
  revert k; induction l as [|a l IH]; intros [|b k] Hlen; simpl in *;
    try discriminate; [done|].
  f_equal. apply IH. congruence.
Qed.

Lemma combine_take {A B} (l : list A) (k : list B) :
  map fst (combine l k) = take (length k) l
  ∧ map snd (combine l k) = take (length l) k.
Proof.
  revert k; induction l as [|a l IH]; intros [|b k]; simpl;
    rewrite ?take_nil; try done.
  destruct (IH k) as [-> ->]. done.
Qed.

Lemma seg_ok_samples I s :
  seg_ok I s →
  samples s ≠ []
  ∧ Forall (λ p, classify I p.1 = seg_color s) (samples s)
  ∧ seg_x s = map fst (samples s) ∧ seg_y s = map snd (samples s).
Proof.
  intros [Hne Hal Hun]. unfold samples.
  destruct (combine_fst_snd (seg_x s) (seg_y s) Hal) as [Hx Hy].
  split; [|split; [|by rewrite Hx, Hy]].
  - destruct (seg_x s), (seg_y s); simpl in *; congruence.
  - apply Forall_forall. intros [t v] Hin. simpl.
    rewrite Forall_forall in Hun. apply Hun.
    apply list_elem_of_In in Hin. apply in_combine_l in Hin.
    by apply list_elem_of_In.
Qed.

Lemma seg_ok_eq I s1 s2 :
  seg_ok I s1 → seg_ok I s2 → samples s1 = samples s2 → s1 = s2.
Proof.
  intros H1 H2 Heq.
  destruct (seg_ok_samples I s1 H1) as (Hn1 & Hc1 & Hx1 & Hy1).
  destruct (seg_ok_samples I s2 H2) as (_ & Hc2 & Hx2 & Hy2).
  rewrite Heq in Hx1, Hy1, Hc1, Hn1.
  destruct s1 as [x1 y1 c1], s2 as [x2 y2 c2]. simpl in *.
  assert (c1 = c2) as ->.
  { destruct (samples _) as [|p l]; [done|].
    inversion Hc1; inversion Hc2; congruence. }
  congruence.
Qed.

Lemma contract_overhang I (s s' : segment V) (L L' : list (segment V)) k :
  seg_ok I s → seg_ok I s' → Forall (seg_ok I) L' →
  alternating (map seg_color (s' :: L')) →
  samples s = samples s' ++ k → flat_map samples L' = k ++ flat_map samples L →
  k = [].
Proof.
  intros Hs Hs' HL' Halt Hsk Hk.
  destruct k as [|p k]; [done|]. exfalso.
  destruct (seg_ok_samples I s Hs) as (_ & Hc & _).
  destruct (seg_ok_samples I s' Hs') as (Hn' & Hc' & _).
  destruct L' as [|s3 L']; [done|].
  apply Forall_cons in HL' as [Hs3 _].
  destruct (seg_ok_samples I s3 Hs3) as (Hn3 & Hc3 & _).
  simpl in Hk, Halt. destruct Halt as [Hne _].
  destruct (samples s3) as [|q l3]; [done|]. simpl in Hk. injection Hk as -> _.
  destruct (samples s') as [|q' l']; [done|].
  rewrite Hsk in Hc. simpl in Hc.
  apply Forall_cons in Hc as [Hq' Hc]. apply Forall_app in Hc as [_ Hc].
  apply Forall_cons in Hc as [Hp _].
  apply Forall_cons in Hc' as [Hq'' _]. apply Forall_cons in Hc3 as [Hp' _].
  congruence.
Qed.

(** Two lists of segments that both meet the contract and carry the same
    samples are the same list. *)
Lemma contract_unique I (L1 : list (segment V)) : ∀ L2,
  Forall (seg_ok I) L1 → Forall (seg_ok I) L2 →
  alternating (map seg_color L1) → alternating (map seg_color L2) →
  flat_map samples L1 = flat_map samples L2 → L1 = L2.
Proof.
  induction L1 as [|s1 L1 IH]; intros L2 H1 H2 A1 A2 Heq.
  - destruct L2 as [|s2 L2]; [done|]. exfalso.
    apply Forall_cons in H2 as [H2 _].
    destruct (seg_ok_samples I s2 H2) as (Hn & _). simpl in Heq.
    destruct (samples s2); [done|discriminate].
  - destruct L2 as [|s2 L2].
    { exfalso. apply Forall_cons in H1 as [H1 _].
      destruct (seg_ok_samples I s1 H1) as (Hn & _). simpl in Heq.
      destruct (samples s1); [done|discriminate]. }
    apply Forall_cons in H1 as [Hs1 H1]. apply Forall_cons in H2 as [Hs2 H2].
    simpl in Heq.
    assert (Hsame : samples s1 = samples s2).
    { apply app_eq_inv in Heq as [(k & Hk1 & Hk2)|(k & Hk1 & Hk2)].
      - assert (k = []) as -> by (by eapply (contract_overhang I s1 s2 L1 L2)).
        by rewrite app_nil_r in Hk1.
      - assert (k = []) as -> by (by eapply (contract_overhang I s2 s1 L2 L1)).
        by rewrite app_nil_r in Hk1. }
    rewrite Hsame in Heq. apply app_inv_head in Heq.
    f_equal; [by eapply seg_ok_eq|].
    apply IH; try done; by eapply alternating_tail.
Qed.

Lemma loop_body_ext I J (st : list (segment V) * segment V) t v :
  in_stress t I = in_stress t J → loop_body I st (t, v) = loop_body J st (t, v).
Proof. intros H. destruct st. unfold loop_body. by rewrite H. Qed.

Lemma fold_loop_ext I J (l : list (Z * V)) : ∀ (st : list (segment V) * segment V),
  Forall (λ p, in_stress p.1 I = in_stress p.1 J) l →
  fold_left (loop_body I) l st = fold_left (loop_body J) l st.
Proof.
  induction l as [|[t v] l IH]; intros st Hl; simpl; [done|].
  apply Forall_cons in Hl as [Ht Hl]. simpl in Ht.
  rewrite (loop_body_ext I J st t v Ht). by apply IH.
Qed.

Lemma loop_closed_grow I (l : list (Z * V)) : ∀ (st : list (segment V) * segment V),
  fst st `prefix_of` fst (fold_left (loop_body I) l st).
Proof.
  induction l as [|[t v] l IH]; intros st; simpl; [done|].
  etrans; [|apply IH]. destruct st as [segs cur]. unfold loop_body.
  destruct (_ && _); simpl; [by apply prefix_app_r|done].
Qed.

Lemma emitted_closed (st : list (segment V) * segment V) :
  fst st `prefix_of` emitted st.
Proof. unfold emitted. destruct (truthy _); [by apply prefix_app_r|done]. Qed.

End SegmentContract.

Section SegmentCount.
Context {V : Type}.

Lemma combine_take_both {A B} (l : list A) (k : list B) :
  combine (take (length k) l) (take (length l) k) = combine l k.
Proof.
  revert k; induction l as [|a l IH]; intros [|b k]; simpl; try done.
  by rewrite IH.
Qed.

Lemma changes_replicate (c : colour) (n : nat) : changes (replicate n c) = 0%nat.
Proof.
  induction n as [|[|n] IH]; simpl in *; try done.
  rewrite (proj2 (colour_eqb_eq c c) eq_refl). exact IH.
Qed.

Lemma changes_app_cons (l : list colour) a b k :
  changes ((l ++ [a]) ++ b :: k)
  = (changes (l ++ [a]) + (if colour_eqb a b then 0 else 1) + changes (b :: k))%nat.
Proof.
  induction l as [|c l IH]; simpl; [lia|].
  destruct l as [|d l]; simpl in *; lia.
Qed.

Lemma uniform_replicate (I : list (Z * Z)) (c : colour) (l : list Z) :
  Forall (λ t, classify I t = c) l → map (classify I) l = replicate (length l) c.
Proof. induction 1; simpl; congruence. Qed.

Lemma replicate_snoc {A} (n : nat) (a : A) : replicate (S n) a = replicate n a ++ [a].
Proof. induction n as [|n IH]; simpl in *; congruence. Qed.

Lemma contract_changes (I : list (Z * Z)) (segs : list (segment V)) :
  Forall (seg_ok I) segs → alternating (map seg_color segs) →
  changes (map (classify I) (concat (map seg_x segs))) = pred (length segs).
Proof.
  induction segs as [|s segs IH]; intros Hok Halt; [done|].
  apply Forall_cons in Hok as [[Hne _ Hun] Hok].
  change (concat (map seg_x (s :: segs))) with (seg_x s ++ concat (map seg_x segs)).
  rewrite map_app, (uniform_replicate I _ _ Hun).
  destruct (length (seg_x s)) as [|n] eqn:Hn; [by destruct (seg_x s)|].
  destruct segs as [|s' segs].
  { change (map (classify I) (concat (map seg_x []))) with (@nil colour).
    rewrite app_nil_r. apply changes_replicate. }
  assert (Halt' : seg_color s ≠ seg_color s'
                  ∧ alternating (map seg_color (s' :: segs))) by exact Halt.
  destruct Halt' as [Hcol Halt'].
  specialize (IH Hok Halt').
  assert (Hhead : ∃ k, map (classify I) (concat (map seg_x (s' :: segs)))
                       = seg_color s' :: k).
  { apply Forall_cons in Hok as [[Hne' _ Hun'] _].
    change (concat (map seg_x (s' :: segs)))
      with (seg_x s' ++ concat (map seg_x segs)).
    destruct (seg_x s') as [|t l]; [done|].
    apply Forall_cons in Hun' as [Ht _]. simpl. rewrite Ht. eauto. }
  destruct Hhead as [k Hk]. rewrite Hk in IH |- *.
  rewrite replicate_snoc, changes_app_cons, <- replicate_snoc, changes_replicate, IH.
  change (length (s' :: segs)) with (S (length segs)).
  change (length (s :: s' :: segs)) with (S (S (length segs))).
  destruct (colour_eqb _ _) eqn:Hc; [by apply colour_eqb_eq in Hc|simpl; lia].
Qed.

Lemma contract_determines (time_indices : list Z) (values : list V)
    (stress_periods : list (Z * Z)) (segments : list (segment V)) :
  flat_map samples segments = combine time_indices values →
  Forall (seg_ok stress_periods) segments →
  alternating (map seg_color segments) →
  segments = create_segments time_indices values stress_periods.
Proof.
  intros Hflat Hok Halt.
  destruct (create_segments_inv time_indices values stress_periods)
    as (Hflat' & Hok' & Halt').
  apply (contract_unique stress_periods); try done. congruence.
Qed.

End SegmentCount.

(** X1: [zip] stops at the shorter sequence, so for inputs of any two
    lengths the segments hold the first [len(values)] times and the first
    [len(time_indices)] values, and the samples beyond the shorter sequence
    play no part in the result. *)
Theorem create_segments_zip {V : Type}
    (time_indices : list Z) (values : list V) (stress_periods : list (Z * Z)) :
  let segments := create_segments time_indices values stress_periods in
  concat (map seg_x segments) = take (length values) time_indices
  ∧ concat (map seg_y segments) = take (length time_indices) values
  ∧ segments
    = create_segments (take (length values) time_indices)
                      (take (length time_indices) values) stress_periods.
Proof.
  intros segments.
  destruct (create_segments_inv time_indices values stress_periods)
    as (Hflat & Hok & _). fold segments in Hflat, Hok.
  assert (Hal : Forall (λ s, length (seg_x s) = length (seg_y s)) segments).
  { eapply Forall_impl; [exact Hok|]. by intros s []. }
  destruct (samples_fst segments Hal) as [Hx Hy].
  destruct (combine_take time_indices values) as [Hf Hs].
  split; [by rewrite <- Hx, Hflat|]. split; [by rewrite <- Hy, Hflat|].
  unfold segments, create_segments. by rewrite combine_take_both.
Qed.

(** X2: the contract determines the result. Any list of segments that
    carries the zipped input samples in order, whose segments are non-empty,
    aligned and uniformly classified with the matching colour, and whose
    neighbours differ in colour, is the list [create_segments] returns. *)
Theorem create_segments_unique {V : Type}
    (time_indices : list Z) (values : list V) (stress_periods : list (Z * Z))
    (segments : list (segment V)) :
  flat_map samples segments = combine time_indices values →
  Forall (seg_ok stress_periods) segments →
  alternating (map seg_color segments) →
  segments = create_segments time_indices values stress_periods.
Proof.
  intros Hflat Hok Halt. by apply contract_determines.
Qed.

Lemma create_segments_unique_witness :
  [mkSegment [0] [10] blue; mkSegment [1; 2] [11; 12] red]
  = create_segments [0; 1; 2] [10; 11; 12] [(1, 3)].
Proof.
  apply (create_segments_unique [0; 1; 2] [10; 11; 12] [(1, 3)]).
  - reflexivity.
  - repeat constructor; simpl; discriminate.
  - simpl. split; [discriminate|exact I].
Defined.

(** X3: a segment, once closed, is final. For an aligned input, all
    segments but the last of the result are a prefix of the result for any
    longer input that extends it. *)
Theorem create_segments_closed_final {V : Type}
    (time_indices more_times : list Z) (values more_values : list V)
    (stress_periods : list (Z * Z)) :
  length time_indices = length values →
  removelast (create_segments time_indices values stress_periods)
  `prefix_of` create_segments (time_indices ++ more_times) (values ++ more_values)
                              stress_periods.
Proof.
  intros Hlen. rewrite !create_segments_emitted.
  rewrite (combine_app_aligned _ _ _ _ Hlen), fold_left_app.
  pose proof (loop_inv_fold stress_periods (combine time_indices values) [] _
                (loop_inv_init stress_periods)) as [_ _ _ Hfresh].
  set (st := fold_left _ (combine time_indices values) _) in *.
  assert (Hrl : removelast (emitted st) = fst st).
  { unfold emitted. destruct (truthy (seg_x (snd st))) eqn:Ht.
    - apply removelast_last.
    - apply truthy_false in Ht. by destruct (Hfresh Ht) as [-> _]. }
  rewrite Hrl. etrans; [apply loop_closed_grow|apply emitted_closed].
Qed.

Lemma create_segments_closed_final_witness :
  removelast (create_segments [0; 1; 2] [10; 11; 12] [(1, 4)])
  `prefix_of` create_segments ([0; 1; 2] ++ [3; 4]) ([10; 11; 12] ++ [13; 14]) [(1, 4)].
Proof.
  apply (create_segments_closed_final [0; 1; 2] [3; 4] [10; 11; 12] [13; 14] [(1, 4)]).
  reflexivity.
Defined.

(** X4: when every time of a non-empty aligned input has the same
    classification, the result is a single segment that holds the whole
    input, red if the times are in stress and blue if not; with no stress
    period at all the whole signal is one blue segment. *)
Theorem create_segments_uniform {V : Type}
    (time_indices : list Z) (values : list V) (stress_periods : list (Z * Z))
    (b : bool) :
  time_indices ≠ [] →
  length time_indices = length values →
  Forall (λ t, in_stress t stress_periods = b) time_indices →
  create_segments time_indices values stress_periods
  = [mkSegment time_indices values (if b then red else blue)].
Proof.
  intros Hne Hlen Hall. symmetry. apply contract_determines.
  - simpl. by rewrite app_nil_r.
  - constructor; [|constructor]. split; simpl; [done..|].
    eapply Forall_impl; [exact Hall|]. intros t Ht. unfold classify. by rewrite Ht.
  - exact I.
Qed.

Lemma create_segments_uniform_witness :
  create_segments [0; 1; 2] [10; 11; 12] [] = [mkSegment [0; 1; 2] [10; 11; 12] blue].
Proof.
  apply (create_segments_uniform [0; 1; 2] [10; 11; 12] [] false).
  - discriminate.
  - reflexivity.
  - repeat constructor.
Defined.

(** X5: the stress periods matter only through the classification of the
    given times. Two collections of periods that classify every time of the
    input alike give the same segments. *)
Theorem create_segments_classification_only {V : Type}
    (time_indices : list Z) (values : list V) (periods periods' : list (Z * Z)) :
  Forall (λ t, in_stress t periods = in_stress t periods') time_indices →
  create_segments time_indices values periods
  = create_segments time_indices values periods'.
Proof.
  intros Hsame. unfold create_segments.
  rewrite (fold_loop_ext periods periods'); [done|].
  apply Forall_forall. intros [t v] Hin. simpl.
  rewrite Forall_forall in Hsame. apply Hsame.
  apply list_elem_of_In in Hin. apply in_combine_l in Hin.
  by apply list_elem_of_In.
Qed.

Lemma create_segments_classification_only_witness :
  create_segments [0; 1; 2; 3] [10; 11; 12; 13] [(1, 3)]
  = create_segments [0; 1; 2; 3] [10; 11; 12; 13] [(1, 2); (2, 3)].
Proof.
  apply (create_segments_classification_only
           [0; 1; 2; 3] [10; 11; 12; 13] [(1, 3)] [(1, 2); (2, 3)]).
  repeat constructor.
Defined.

(** X6: the order in which the stress periods are supplied, and how often
    each one is repeated, is irrelevant: two collections with the same
    members give the same segments. *)
Theorem create_segments_periods_as_set {V : Type}
    (time_indices : list Z) (values : list V) (periods periods' : list (Z * Z)) :
  (∀ p, p ∈ periods ↔ p ∈ periods') →
  create_segments time_indices values periods
  = create_segments time_indices values periods'.
Proof.
  intros Hmem. unfold create_segments.
  rewrite (fold_loop_ext periods periods'); [done|].
  apply Forall_forall. intros [t v] _. simpl.
  apply eq_true_iff_eq. rewrite !in_stress_spec.
  split; intros (a & b & Hin & Hle); exists a, b; split; try done; by apply Hmem.
Qed.

Lemma create_segments_periods_as_set_witness :
  create_segments [0; 1; 2; 3; 4; 5] [10; 11; 12; 13; 14; 15] [(1, 2); (4, 5)]
  = create_segments [0; 1; 2; 3; 4; 5] [10; 11; 12; 13; 14; 15]
                    [(4, 5); (1, 2); (4, 5)].
Proof.
  apply (create_segments_periods_as_set
           [0; 1; 2; 3; 4; 5] [10; 11; 12; 13; 14; 15]
           [(1, 2); (4, 5)] [(4, 5); (1, 2); (4, 5)]).
  intros p. rewrite !elem_of_cons, !elem_of_nil. tauto.
Defined.

(** X7: a period whose end is not after its start marks no sample: adding
    it to the stress periods leaves the result unchanged. *)
Theorem create_segments_empty_period {V : Type}
    (time_indices : list Z) (values : list V) (periods : list (Z * Z))
    (start end_ : Z) :
  end_ ≤ start →
  create_segments time_indices values ((start, end_) :: periods)
  = create_segments time_indices values periods.
Proof.
  intros Hle. unfold create_segments.
  rewrite (fold_loop_ext ((start, end_) :: periods) periods); [done|].
  apply Forall_forall. intros [t v] _. simpl.
  destruct (Z.leb_spec start t), (Z.ltb_spec t end_); simpl; try done. lia.
Qed.

Lemma create_segments_empty_period_witness :
  create_segments [0; 1; 2; 3] [10; 11; 12; 13] [(3, 1); (2, 3)]
  = create_segments [0; 1; 2; 3] [10; 11; 12; 13] [(2, 3)].
Proof.
  apply (create_segments_empty_period [0; 1; 2; 3] [10; 11; 12; 13] [(2, 3)] 3 1).
  lia.
Defined.

(** X8: for a non-empty aligned input the number of segments is one more
    than the number of neighbouring samples whose classifications differ. *)
Theorem create_segments_count {V : Type}
    (time_indices : list Z) (values : list V) (stress_periods : list (Z * Z)) :
  time_indices ≠ [] →
  length time_indices = length values →
  length (create_segments time_indices values stress_periods)
  = S (changes (map (classify stress_periods) time_indices)).
Proof.
  intros Hne Hlen.
  destruct (create_segments_inv time_indices values stress_periods)
    as (Hflat & Hok & Halt).
  assert (Hal : Forall (λ s, length (seg_x s) = length (seg_y s))
                       (create_segments time_indices values stress_periods)).
  { eapply Forall_impl; [exact Hok|]. by intros s []. }
  destruct (samples_fst _ Hal) as [Hx _].
  rewrite Hflat in Hx. rewrite (proj1 (combine_fst_snd _ _ Hlen)) in Hx.
  pose proof (contract_changes stress_periods _ Hok Halt) as Hch.
  rewrite <- Hx in Hch. rewrite Hch.
  destruct (create_segments _ _ _) as [|s segs]; [|done].
  simpl in Hx. congruence.
Qed.

Lemma create_segments_count_witness :
  length (create_segments [0; 1; 2; 3; 4] [10; 11; 12; 13; 14] [(1, 3)])
  = S (changes (map (classify [(1, 3)]) [0; 1; 2; 3; 4])).
Proof.
  apply (create_segments_count [0; 1; 2; 3; 4] [10; 11; 12; 13; 14] [(1, 3)]).
  - discriminate.
  - reflexivity.
Defined.

(** ** Further properties of the evaluation driver *)

Section PeriodFacts.

Lemma periods_from (l : list Z) : ∀ i : Z,
  let periods :=
    flat_map (λ '(i, label), if (label =? 1)%Z then [(i * 8, (i + 1) * 8)] else [])
             (enumerate_from i l) in
  Forall (λ p, i * 8 ≤ p.1 ∧ p.2 = p.1 + 8) periods
  ∧ StronglySorted (λ p q, p.2 ≤ q.1) periods
  ∧ length periods = length (filter (λ label, label = 1) l).
Proof.
  induction l as [|a l IH]; intros i; simpl.
  { repeat split; constructor. }
  destruct (IH (i + 1)) as (Hb & Hs & Hlen). simpl in Hb, Hs, Hlen.
  assert (Hb' : Forall (λ p, i * 8 ≤ p.1 ∧ p.2 = p.1 + 8)
                  (flat_map (λ '(i, label),
                       if (label =? 1)%Z then [(i * 8, (i + 1) * 8)] else [])
                     (enumerate_from (i + 1) l))).
  { eapply Forall_impl; [exact Hb|]. simpl. intros p. lia. }
  rewrite filter_cons. destruct (Z.eqb_spec a 1) as [->|Hne].
  - rewrite decide_True by done. simpl. repeat split.
    + constructor; [simpl; lia|exact Hb'].
    + constructor; [exact Hs|].
      eapply Forall_impl; [exact Hb|]. simpl. intros p. lia.
    + by rewrite Hlen.
  - rewrite decide_False by done. simpl. by repeat split.
Qed.

Lemma binarize_lookup (scores : list float) (i : nat) :
  binarize (map (λ p, [p]) scores) !! i = Some 1
  ↔ (PrimFloat.ltb 0.5 <$> scores !! i) = Some true.
Proof.
  rewrite binarize_concat.
  replace (concat (map (λ p, [p]) scores)) with scores
    by (induction scores; simpl; congruence).
  rewrite list_lookup_fmap. destruct (scores !! i) as [p|]; simpl; [|done].
  destruct (PrimFloat.ltb 0.5 p); split; congruence.
Qed.

End PeriodFacts.

(** X9: a time lies in one of the stress periods derived from a label
    sequence exactly when it is not negative and the label of the window
    that holds it, window [t // 8], is 1. *)
Theorem stress_period_covers (labels : list Z) (t : Z) :
  (∃ start end_, (start, end_) ∈ stress_periods_of labels ∧ start ≤ t < end_)
  ↔ 0 ≤ t ∧ labels !! Z.to_nat (t / 8) = Some 1.
Proof.
  rewrite stress_periods_of_filter. split.
  - intros (a & b & Hin & Hle).
    apply list_elem_of_fmap in Hin as (i & Heq & Hi).
    apply list_elem_of_filter in Hi as [Hl _].
    unfold interval_of in Heq. injection Heq as -> ->.
    assert (t / 8 = Z.of_nat i) as ->.
    { symmetry. apply (Z.div_unique t 8 (Z.of_nat i) (t - Z.of_nat i * 8)); lia. }
    rewrite Nat2Z.id. split; [lia|done].
  - intros [Hpos Hl].
    pose proof (Z.div_pos t 8 Hpos ltac:(lia)) as Hq.
    pose proof (Z.mul_div_le t 8 ltac:(lia)) as Hlo.
    pose proof (Z.mul_succ_div_gt t 8 ltac:(lia)) as Hhi.
    exists (Z.of_nat (Z.to_nat (t / 8)) * 8), ((Z.of_nat (Z.to_nat (t / 8)) + 1) * 8).
    split; [|rewrite Z2Nat.id by done; lia].
    apply list_elem_of_fmap. exists (Z.to_nat (t / 8)). split; [done|].
    apply list_elem_of_filter. split; [done|].
    apply elem_of_seq. apply lookup_lt_Some in Hl. lia.
Qed.

(** X10: the stress periods derived from a label sequence never overlap and
    come in increasing order, each one starts at a non-negative time and is
    8 units long, and there is one period per label equal to 1. *)
Theorem stress_periods_of_disjoint (labels : list Z) :
  Forall (λ p, 0 ≤ p.1 ∧ p.2 = p.1 + 8) (stress_periods_of labels)
  ∧ StronglySorted (λ p q, p.2 ≤ q.1) (stress_periods_of labels)
  ∧ length (stress_periods_of labels) = length (filter (λ label, label = 1) labels).
Proof. exact (periods_from labels 0). Qed.

(** X11: the binarized predictions are binary and there is one per score;
    a score that is not a number counts as not above the threshold. *)
Theorem binarize_binary (y_pred_probs : list (list float)) :
  Forall (λ z, z = 0 ∨ z = 1) (binarize y_pred_probs)
  ∧ length (binarize y_pred_probs) = length (concat y_pred_probs)
  ∧ binarize (y_pred_probs ++ [[nan]]) = binarize y_pred_probs ++ [0].
Proof.
  rewrite !binarize_concat. split; [|split].
  - apply Forall_fmap, Forall_true. intros p. simpl.
    destruct (PrimFloat.ltb _ _); auto.
  - by rewrite length_map.
  - by rewrite concat_app, map_app.
Qed.

(** X12: binarization composed with the derivation of the periods: the
    predicted stress periods are exactly the intervals [[i*8, (i+1)*8)] of
    the windows [i] whose score is strictly greater than 0.5, in increasing
    order of [i]. *)
Theorem predicted_periods_of_scores (scores : list float) :
  stress_periods_of (binarize (map (λ p, [p]) scores))
  = map interval_of
        (filter (λ i, (PrimFloat.ltb 0.5 <$> scores !! i) = Some true)
                (seq 0 (length scores))).
Proof.
  rewrite stress_periods_of_filter. f_equal.
  assert (length (binarize (map (λ p, [p]) scores)) = length scores) as ->.
  { rewrite binarize_concat, length_map.
    induction scores; simpl; congruence. }
  apply filter_agree, Forall_forall. intros i _. apply binarize_lookup.
Qed.

Section ExitFacts.
Local Open Scope string_scope.
Local Open Scope list_scope.

(** Every call ends in one of the ways [plot_exit] lists. *)
Lemma plot_run_exit (G : globals) (W : world) (xp yp : string)
    (m : model) (sid : string) :
  plot_exit W xp yp m sid
    (fst (run (plot_physiological_signals G W xp yp m sid)))
    (snd (run (plot_physiological_signals G W xp yp m sid))).
Proof.
  unfold run, plot_physiological_signals, plot_body, with_open, with_, reshape,
    lift, emit, getitem, raise, mbind, io_bind, mret, io_ret.
  repeat (case_match; simplify_eq/=; unfold mret, io_ret, raise in * ).
  all: simplify_eq/=.
  all: repeat match goal with a : () |- _ => destruct a end.
  all: rewrite ?fold_add_shape in *; unfold update_layout, add_trace in *; simpl in *.
  all: try (solve [econstructor; (split || idtac); eauto]).
  all: eapply exit_key; [split; eauto| |eassumption].
  all: unfold required_keys;
    repeat first [apply list_elem_of_here|apply list_elem_of_further].
Qed.

(** *** Computations that only extend the trace *)

Lemma framed_ret {A} (a : A) : framed (mret a).
Proof. intros tr. unfold mret, io_ret. simpl. by rewrite app_nil_r. Qed.

Lemma framed_raise {A} e : framed (raise (A := A) e).
Proof. intros tr. unfold raise. simpl. by rewrite app_nil_r. Qed.

Lemma framed_lift {A} (r : result A) : framed (lift r).
Proof. intros tr. unfold lift. simpl. by rewrite app_nil_r. Qed.

Lemma framed_emit e : framed (emit e).
Proof. intros tr. reflexivity. Qed.

Lemma framed_bind {A B} (m : io A) (k : A → io B) :
  framed m → (∀ a, framed (k a)) → framed (m ≫= k).
Proof.
  intros Hm Hk tr. unfold mbind, io_bind.
  rewrite (Hm tr). destruct (m []) as [tr1 [a|e]]; simpl; [|done].
  rewrite (Hk a (tr ++ tr1)), (Hk a tr1). simpl. by rewrite app_assoc.
Qed.

Lemma framed_with {R A} (enter : io R) (exit : io unit) (body : R → io A) :
  framed enter → framed exit → (∀ r, framed (body r)) →
  framed (with_ enter exit body).
Proof.
  intros Hen Hex Hbody tr. unfold with_.
  rewrite (Hen tr). destruct (enter []) as [tr1 [r|e]]; simpl; [|done].
  rewrite (Hbody r (tr ++ tr1)), (Hbody r tr1). simpl.
  rewrite (Hex ((tr ++ tr1) ++ _)), (Hex (tr1 ++ _)). simpl.
  by rewrite !app_assoc.
Qed.

Lemma framed_check_keys keys x_test : framed (check_keys keys x_test).
Proof.
  induction keys as [|k keys IH]; simpl; [apply framed_ret|].
  destruct (x_test !! k); [exact IH|apply framed_raise].
Qed.

Lemma framed_getitem {A} (d : gmap string A) key : framed (getitem d key).
Proof. unfold getitem. destruct (d !! key); [apply framed_ret|apply framed_raise]. Qed.

Lemma framed_getitem_lit {A} (d : list (string * A)) key :
  framed (getitem_lit d key).
Proof.
  unfold getitem_lit. destruct (list_find _ d) as [[? [? ?]]|];
    [apply framed_ret|apply framed_raise].
Qed.

Ltac framed_step :=
  first
    [ apply framed_ret | apply framed_raise | apply framed_lift
    | apply framed_check_keys | apply framed_getitem | apply framed_getitem_lit
    | apply framed_emit
    | apply framed_with | apply framed_bind | intro | progress cbv zeta ].

Lemma plot_framed G W x_test_path y_test_path model subject_id :
  framed (plot_physiological_signals G W x_test_path y_test_path model subject_id).
Proof.
  unfold plot_physiological_signals, plot_body, with_open, reshape.
  repeat framed_step.
Qed.

Lemma check_keys_present (keys : list string) (x_test : gmap string channel) tr :
  Forall (λ k, is_Some (x_test !! k)) keys →
  check_keys keys x_test tr = (tr, Ok tt).
Proof.
  induction 1 as [|k keys [a Hk] _ IH]; simpl; [done|]. by rewrite Hk.
Qed.

End ExitFacts.

(** X13: a call that returns has done every step once and in order: the two
    loads, the four reshapes, the inference call, the confusion-matrix log,
    one write of the chart, the image log, the closing of the session. The
    figure it returns is the one it wrote: the EDA trace over the sample
    positions with the green rectangles of the true stress periods and the
    red ones of the predicted periods. *)
Theorem plot_returns_chart (G : globals) (W : world)
    (x_test_path y_test_path : string) (model : model) (subject_id : string)
    (fig : figure) :
  snd (run (plot_physiological_signals G W x_test_path y_test_path model subject_id))
  = Ok fig →
  ∃ x_test y_test eda inputs probs,
    unpickle_features W x_test_path = Ok x_test
    ∧ unpickle_labels W y_test_path = Ok y_test
    ∧ x_test !! "EDA"%string = Some eda
    ∧ predict model inputs = Ok probs
    ∧ fig = chart subject_id eda y_test (binarize probs)
    ∧ fst (run (plot_physiological_signals
                  G W x_test_path y_test_path model subject_id))
      = prelude x_test_path y_test_path ++ reshapes
        ++ [EvPredict inputs;
            EvLogPlot "confusion_matrix" y_test (binarize probs)
                      ("confusion_matrix subject: " +:+ subject_id);
            EvWriteImage fig plot_path;
            EvLogImage "physiological_signals" plot_path;
            EvLiveExit].
Proof.
  intros Hok.
  pose proof (plot_run_exit G W x_test_path y_test_path model subject_id) as Hexit.
  rewrite Hok in Hexit.
  remember (fst (run (plot_physiological_signals _ _ _ _ _ _))) as tr eqn:Htr.
  clear Htr Hok. inversion Hexit as [| | | | | | | | | | | | | |
      x_test y_test eda temp bvp acc t_eda t_temp t_bvp t_acc probs
      Hl He Hr Hp Hlp Hw Hli Htr Hfig]; subst.
  destruct Hl, He.
  exists x_test, y_test, eda, [t_eda; t_bvp; t_temp; t_acc], probs.
  repeat split; done.
Qed.

Lemma plot_returns_chart_witness :
  ∃ x_test y_test eda inputs probs,
    unpickle_features Examples.sample_world "x_test.pkl" = Ok x_test
    ∧ unpickle_labels Examples.sample_world "y_test.pkl" = Ok y_test
    ∧ x_test !! "EDA"%string = Some eda
    ∧ predict Examples.sample_model inputs = Ok probs
    ∧ chart "S16" (Examples.flat 64 0.25%float) [0; 1] [0; 1]
      = chart "S16" eda y_test (binarize probs)
    ∧ fst (run (plot_physiological_signals Examples.script_globals
                  Examples.sample_world "x_test.pkl" "y_test.pkl"
                  Examples.sample_model "S16"))
      = prelude "x_test.pkl" "y_test.pkl" ++ reshapes
        ++ [EvPredict inputs;
            EvLogPlot "confusion_matrix" y_test (binarize probs)
                      ("confusion_matrix subject: " +:+ "S16");
            EvWriteImage (chart "S16" (Examples.flat 64 0.25%float) [0; 1] [0; 1])
                         plot_path;
            EvLogImage "physiological_signals" plot_path;
            EvLiveExit].
Proof.
  apply (plot_returns_chart Examples.script_globals Examples.sample_world
           "x_test.pkl" "y_test.pkl" Examples.sample_model "S16"
           (chart "S16" (Examples.flat 64 0.25%float) [0; 1] [0; 1])).
  vm_compute. reflexivity.
Defined.

Section ExitInversion.
Local Open Scope string_scope.
Local Open Scope list_scope.

Lemma np_reshape_ok (a : channel) (w : nat) (t : tensor) :
  np_reshape a w = Ok t → (length a mod w = 0)%nat.
Proof.
  unfold np_reshape. destruct (Nat.eqb_spec (length a mod w) 0); [done|discriminate].
Qed.

Lemma np_reshape_err (a : channel) (w : nat) (e : exn) :
  np_reshape a w = Err e → exn_class e = "ValueError".
Proof. unfold np_reshape. case_match; [discriminate|]. by intros [= <-]. Qed.

Lemma required_key_cases (key : string) :
  key ∈ required_keys → key = "EDA" ∨ key = "TEMP" ∨ key = "BVP" ∨ key = "ACC".
Proof.
  unfold required_keys. rewrite !elem_of_cons, elem_of_nil. tauto.
Qed.

End ExitInversion.

(** Splits a membership in an explicit list of events into its cases. *)
Ltac event_cases H :=
  unfold prelude, reshapes, file_events in H; simpl in H;
  repeat (apply elem_of_cons in H as [H|H]; [try discriminate H|]);
  try (by apply elem_of_nil in H).

(** X14: the image is logged only once it has been written. In every run
    that holds an image-log event, that event names the plot file, the
    write of the chart to that file returned, and the write is the event
    just before the log. *)
Theorem image_logged_after_written (G : globals) (W : world)
    (x_test_path y_test_path : string) (model : model) (subject_id : string)
    (name path : string) :
  EvLogImage name path
    ∈ fst (run (plot_physiological_signals G W x_test_path y_test_path model subject_id)) →
  name = "physiological_signals"%string ∧ path = plot_path
  ∧ ∃ fig before after,
      write_image W fig plot_path = Ok tt
      ∧ fst (run (plot_physiological_signals
                    G W x_test_path y_test_path model subject_id))
        = before ++ [EvWriteImage fig plot_path; EvLogImage name path] ++ after.
Proof.
  intros Hin.
  pose proof (plot_run_exit G W x_test_path y_test_path model subject_id) as Hexit.
  remember (fst (run (plot_physiological_signals _ _ _ _ _ _))) as tr eqn:Htr.
  remember (snd (run (plot_physiological_signals _ _ _ _ _ _))) as res eqn:Hres.
  clear Htr Hres.
  destruct Hexit; event_cases Hin; injection Hin as -> ->.
  all: split; [done|]; split; [done|].
  all: eexists _, (prelude x_test_path y_test_path ++ reshapes ++ [_; _]), [EvLiveExit].
  all: split; [eassumption|reflexivity].
Qed.

Lemma image_logged_after_written_witness :
  "physiological_signals"%string = "physiological_signals"%string
  ∧ plot_path = plot_path
  ∧ ∃ fig before after,
      write_image Examples.sample_world fig plot_path = Ok tt
      ∧ fst (run (plot_physiological_signals Examples.script_globals
                    Examples.sample_world "x_test.pkl" "y_test.pkl"
                    Examples.sample_model "S16"))
        = before ++ [EvWriteImage fig plot_path;
                     EvLogImage "physiological_signals" plot_path] ++ after.
Proof.
  apply (image_logged_after_written Examples.script_globals Examples.sample_world
           "x_test.pkl" "y_test.pkl" Examples.sample_model "S16").
  apply (list_elem_of_lookup_2 _ 14%nat). vm_compute. reflexivity.
Defined.



(** X16: files never stay open. On every path of a call, the file events of
    the trace are, for the feature file and then for the label file as far
    as the call got, an open, a load and a close of that file, the close
    following also when the load raised. *)
Theorem files_closed (G : globals) (W : world)
    (x_test_path y_test_path : string) (model : model) (subject_id : string) :
  ∃ paths,
    paths `prefix_of` [x_test_path; y_test_path]
    ∧ filter (λ e, is_file e = true)
             (fst (run (plot_physiological_signals
                          G W x_test_path y_test_path model subject_id)))
      = flat_map file_events paths.
Proof.
  pose proof (plot_run_exit G W x_test_path y_test_path model subject_id) as Hexit.
  remember (fst (run (plot_physiological_signals _ _ _ _ _ _))) as tr eqn:Htr.
  remember (snd (run (plot_physiological_signals _ _ _ _ _ _))) as res eqn:Hres.
  clear Htr Hres.
  destruct Hexit.
  1, 2: exists []; split; [apply prefix_nil|reflexivity].
  1, 2: exists [x_test_path]; split; [by exists [y_test_path]|reflexivity].
  all: exists [x_test_path; y_test_path]; split; [done|reflexivity].
Qed.

(** X17: a channel whose length is not a multiple of its window length (32
    for EDA and TEMP, 256 for BVP and ACC) makes the call fail in the
    reshape step: with the session open, both fixtures loaded and the four
    keys present, the call raises a [ValueError], makes no inference call,
    and closes the session last. *)
Theorem ragged_channel_raises (G : globals) (W : world)
    (x_test_path y_test_path : string) (model : model) (subject_id : string)
    (x_test : gmap string channel) (y_test : list Z) (eda temp bvp acc : channel) :
  loaded W x_test_path y_test_path x_test y_test →
  extracted x_test eda temp bvp acc →
  (length eda mod 32 ≠ 0 ∨ length temp mod 32 ≠ 0
   ∨ length bvp mod 256 ≠ 0 ∨ length acc mod 256 ≠ 0)%nat →
  let r := run (plot_physiological_signals
                  G W x_test_path y_test_path model subject_id) in
  ∃ e, snd r = Err e
       ∧ exn_class e = "ValueError"%string
       ∧ Forall (λ ev, is_predict ev = false) (fst r)
       ∧ last (fst r) = Some EvLiveExit.
Proof.
  intros [Hlive Hox Hx Hoy Hy] [Heda Htemp Hbvp Hacc] Hrag r. unfold r. clear r.
  pose proof (plot_run_exit G W x_test_path y_test_path model subject_id) as Hexit.
  remember (fst (run (plot_physiological_signals _ _ _ _ _ _))) as tr eqn:Htr.
  remember (snd (run (plot_physiological_signals _ _ _ _ _ _))) as res eqn:Hres.
  clear Htr Hres.
  destruct Hexit;
    repeat match goal with
    | H : loaded _ _ _ _ _ |- _ => destruct H
    | H : extracted _ _ _ _ _ |- _ => destruct H
    | H : reshaped _ _ _ _ _ _ _ _ |- _ => destruct H
    end;
    try congruence.
  1: { (* a missing key *)
    assert (x_test0 = x_test) as -> by congruence.
    match goal with H : _ ∈ required_keys |- _ =>
      apply required_key_cases in H as [-> | [-> | [-> | ->]]] end; congruence. }
  (* a reshape raised *)
  1-4: (eexists; split; [done|]; split; [by eapply np_reshape_err|];
        split; [by repeat constructor|done]).
  (* the four reshapes returned: the lengths are multiples after all *)
  all: exfalso; assert (x_test0 = x_test) as -> by congruence.
  all: repeat match goal with H : np_reshape _ _ = Ok _ |- _ =>
         apply np_reshape_ok in H end.
  all: assert (eda0 = eda) as -> by congruence.
  all: assert (temp0 = temp) as -> by congruence.
  all: assert (bvp0 = bvp) as -> by congruence.
  all: assert (acc0 = acc) as -> by congruence.
  all: tauto.
Qed.

Lemma ragged_channel_raises_witness :
  let r := run (plot_physiological_signals Examples.script_globals
                  (Examples.calm_world Examples.x_test_ragged [0; 1]
                     Examples.sample_model)
                  "x_test.pkl" "y_test.pkl" Examples.sample_model "S16") in
  ∃ e, snd r = Err e
       ∧ exn_class e = "ValueError"%string
       ∧ Forall (λ ev, is_predict ev = false) (fst r)
       ∧ last (fst r) = Some EvLiveExit.
Proof.
  apply (ragged_channel_raises Examples.script_globals
           (Examples.calm_world Examples.x_test_ragged [0; 1] Examples.sample_model)
           "x_test.pkl" "y_test.pkl" Examples.sample_model "S16"
           Examples.x_test_ragged [0; 1]
           (Examples.flat 33 0.25%float) (Examples.flat 64 36.5%float)
           (Examples.flat 512 0.5%float) (Examples.flat 512 1%float)).
  - split; reflexivity.
  - split; reflexivity.
  - left. vm_compute. discriminate.
Defined.

(** X18: [evaluate] is the model load, the print of the summary, the driver
    on the two fixed fixture files for subject S16, and the completion
    message, in this order. A failed load stops it before anything else
    happens; an error of the driver is passed on as it is, and the
    completion message is printed only when the driver returned. *)
Theorem evaluate_composes (G : globals) (W : world) :
  run (evaluate G W)
  = match load_model W "models/best_model.h5" with
    | Err e => ([EvLoadModel "models/best_model.h5"], Err e)
    | Ok model =>
        let r := run (plot_physiological_signals G W
                        "data/results/x_test_1.pkl" "data/results/y_test_1.pkl"
                        model "S16") in
        match snd r with
        | Ok _ =>
            ([EvLoadModel "models/best_model.h5"; EvPrint (summary model)]
               ++ fst r ++ [EvPrint "Evaluation complete."],
             Ok tt)
        | Err e =>
            ([EvLoadModel "models/best_model.h5"; EvPrint (summary model)] ++ fst r,
             Err e)
        end
    end.
Proof.
  unfold run, evaluate, mbind, io_bind, emit, lift. simpl.
  destruct (load_model W _) as [model|e]; [|done].
  rewrite (plot_framed G W _ _ model "S16" [_; _]).
  by destruct (snd _) as [fig|e].
Qed.

Section KeyFacts.

Lemma check_keys_trace (keys : list string) (x_test : gmap string channel) tr :
  fst (check_keys keys x_test tr) = tr.
Proof.
  induction keys as [|k keys IH]; simpl; [done|]. by destruct (x_test !! k).
Qed.

Lemma check_keys_insert (keys : list string) (x_test : gmap string channel)
    (key : string) (v : channel) tr :
  key ∉ keys →
  check_keys keys (<[key := v]> x_test) tr = check_keys keys x_test tr.
Proof.
  induction keys as [|k keys IH]; intros Hnot; simpl; [done|].
  apply not_elem_of_cons in Hnot as [Hne Hnot].
  rewrite lookup_insert_ne by done. destruct (x_test !! k); [by apply IH|done].
Qed.

End KeyFacts.

(** X19: the key check asks for the four required keys and for nothing
    else. It lets a feature mapping pass exactly when EDA, TEMP, BVP and
    ACC are all present; it leaves the trace as it was; and an entry
    under any other key does not change its verdict. *)
Theorem check_keys_accepts (x_test : gmap string channel) (tr : list event) :
  (check_keys required_keys x_test tr = (tr, Ok tt)
   ↔ ∀ key, key ∈ required_keys → is_Some (x_test !! key))
  ∧ fst (check_keys required_keys x_test tr) = tr
  ∧ ∀ key v, key ∉ required_keys →
      check_keys required_keys (<[key := v]> x_test) tr
      = check_keys required_keys x_test tr.
Proof.
  split; [|split; [apply check_keys_trace|intros; by apply check_keys_insert]].
  split.
  - intros Hok key Hin.
    destruct (x_test !! key) as [a|] eqn:Hk; [by eexists|]. exfalso.
    destruct (check_keys_missing required_keys x_test)
      as (before & k & after & _ & _ & _ & Hrun); [by eauto|].
    rewrite Hrun in Hok. discriminate.
  - intros Hall. apply check_keys_present. by apply Forall_forall.
Qed.

(** ** The arguments of the inference call *)

Section ReshapeFacts.
Local Open Scope string_scope.
Local Open Scope list_scope.

Lemma windows_concat {A} (n w : nat) (l : list A) :
  length l = (n * w)%nat → concat (windows n w l) = l.
Proof.
  revert l; induction n as [|n IH]; intros l Hlen; simpl in *.
  - by destruct l.
  - rewrite IH; [apply take_drop|]. rewrite length_drop. lia.
Qed.

Lemma concat_cells (row : list float) : concat (map (λ v, [v]) row) = row.
Proof. induction row; simpl; congruence. Qed.

(** Flattening the reshaped tensor gives back the flat array. *)
Lemma np_reshape_flatten (a : channel) (w : nat) (t : tensor) :
  np_reshape a w = Ok t → concat (concat t) = a.
Proof.
  unfold np_reshape. destruct (Nat.eqb_spec (length a mod w) 0) as [Hmod|];
    [|discriminate]. intros [= <-].
  rewrite <- concat_map, concat_cells. apply windows_concat.
  apply Nat.Div0.div_exact in Hmod. lia.
Qed.

End ReshapeFacts.

(** C6: whenever the run contains an inference call, it contains exactly
    one, and it is a call of the model's [predict] on four tensors: the
    reshaped EDA, BVP, TEMP and ACC channels in this order, each holding the
    samples of its channel, EDA and TEMP cut into windows of 32 samples, BVP
    and ACC into windows of 256. What [predict] answers on exactly these
    arguments decides how the run goes on: its scores, binarized, are what
    the confusion-matrix log receives next, and its exception ends the run.
    The four reshapes that come before the call were done in the other
    order EDA, TEMP, BVP, ACC. *)
Theorem predict_call_arguments (G : globals) (W : world)
    (x_test_path y_test_path : string) (model : model) (subject_id : string)
    (inputs : list tensor) :
  EvPredict inputs
    ∈ fst (run (plot_physiological_signals G W x_test_path y_test_path model subject_id)) →
  ∃ x_test y_test eda temp bvp acc t_eda t_temp t_bvp t_acc rest,
    unpickle_features W x_test_path = Ok x_test
    ∧ unpickle_labels W y_test_path = Ok y_test
    ∧ (x_test !! "EDA"%string = Some eda ∧ x_test !! "TEMP"%string = Some temp
       ∧ x_test !! "BVP"%string = Some bvp ∧ x_test !! "ACC"%string = Some acc)
    ∧ (np_reshape eda 32 = Ok t_eda ∧ np_reshape temp 32 = Ok t_temp
       ∧ np_reshape bvp 256 = Ok t_bvp ∧ np_reshape acc 256 = Ok t_acc)
    ∧ (windowed 32 t_eda ∧ windowed 32 t_temp
       ∧ windowed 256 t_bvp ∧ windowed 256 t_acc)
    ∧ (concat (concat t_eda) = eda ∧ concat (concat t_temp) = temp
       ∧ concat (concat t_bvp) = bvp ∧ concat (concat t_acc) = acc)
    ∧ inputs = [t_eda; t_bvp; t_temp; t_acc]
    ∧ fst (run (plot_physiological_signals G W x_test_path y_test_path model subject_id))
      = prelude x_test_path y_test_path
        ++ [EvReshape "EDA" 32; EvReshape "TEMP" 32;
            EvReshape "BVP" 256; EvReshape "ACC" 256]
        ++ EvPredict inputs :: rest
    ∧ Forall (λ e, is_predict e = false ∧ is_reshape e = false) rest
    ∧ match predict model inputs with
      | Ok probs =>
          ∃ rest',
            rest = EvLogPlot "confusion_matrix" y_test (binarize probs)
                             ("confusion_matrix subject: " +:+ subject_id)
                   :: rest'
      | Err e =>
          rest = [EvLiveExit]
          ∧ snd (run (plot_physiological_signals
                        G W x_test_path y_test_path model subject_id)) = Err e
      end.
Proof.
  intros Hin.
  pose proof (plot_run_exit G W x_test_path y_test_path model subject_id) as Hexit.
  remember (fst (run (plot_physiological_signals _ _ _ _ _ _))) as tr eqn:Htr.
  remember (snd (run (plot_physiological_signals _ _ _ _ _ _))) as res eqn:Hres.
  clear Htr Hres.
  destruct Hexit; event_cases Hin; injection Hin as ->.
  all: repeat match goal with
         | H : loaded _ _ _ _ _ |- _ => destruct H
         | H : extracted _ _ _ _ _ |- _ => destruct H
         | H : reshaped _ _ _ _ _ _ _ _ |- _ => destruct H
         end.
  all: eexists x_test, y_test, eda, temp, bvp, acc, t_eda, t_temp, t_bvp, t_acc, _.
  all: split; [done|]; split; [done|]; split; [done|]; split; [done|].
  all: split; [repeat split; by eapply np_reshape_windowed|].
  all: split; [repeat split; by eapply np_reshape_flatten|].
  all: split; [reflexivity|]; split; [reflexivity|].
  all: split; [by repeat constructor|].
  all: match goal with H : predict _ _ = _ |- _ => rewrite H end.
  all: by eauto.
Qed.

Lemma predict_call_arguments_witness :
  ∃ x_test y_test eda temp bvp acc t_eda t_temp t_bvp t_acc rest,
    unpickle_features Examples.shape_world "x_test.pkl" = Ok x_test
    ∧ unpickle_labels Examples.shape_world "y_test.pkl" = Ok y_test
    ∧ (x_test !! "EDA"%string = Some eda ∧ x_test !! "TEMP"%string = Some temp
       ∧ x_test !! "BVP"%string = Some bvp ∧ x_test !! "ACC"%string = Some acc)
    ∧ (np_reshape eda 32 = Ok t_eda ∧ np_reshape temp 32 = Ok t_temp
       ∧ np_reshape bvp 256 = Ok t_bvp ∧ np_reshape acc 256 = Ok t_acc)
    ∧ (windowed 32 t_eda ∧ windowed 32 t_temp
       ∧ windowed 256 t_bvp ∧ windowed 256 t_acc)
    ∧ (concat (concat t_eda) = eda ∧ concat (concat t_temp) = temp
       ∧ concat (concat t_bvp) = bvp ∧ concat (concat t_acc) = acc)
    ∧ Examples.sample_inputs = [t_eda; t_bvp; t_temp; t_acc]
    ∧ fst (run (plot_physiological_signals Examples.script_globals
                  Examples.shape_world "x_test.pkl" "y_test.pkl"
                  Examples.shape_model "S16"))
      = prelude "x_test.pkl" "y_test.pkl"
        ++ [EvReshape "EDA" 32; EvReshape "TEMP" 32;
            EvReshape "BVP" 256; EvReshape "ACC" 256]
        ++ EvPredict Examples.sample_inputs :: rest
    ∧ Forall (λ e, is_predict e = false ∧ is_reshape e = false) rest
    ∧ match predict Examples.shape_model Examples.sample_inputs with
      | Ok probs =>
          ∃ rest',
            rest = EvLogPlot "confusion_matrix" y_test (binarize probs)
                             ("confusion_matrix subject: " +:+ "S16")
                   :: rest'
      | Err e =>
          rest = [EvLiveExit]
          ∧ snd (run (plot_physiological_signals Examples.script_globals
                        Examples.shape_world "x_test.pkl" "y_test.pkl"
                        Examples.shape_model "S16")) = Err e
      end.
Proof.
  apply (predict_call_arguments Examples.script_globals Examples.shape_world
           "x_test.pkl" "y_test.pkl" Examples.shape_model "S16"
           Examples.sample_inputs).
  apply (list_elem_of_lookup_2 _ 11%nat). vm_compute. reflexivity.
Defined.

(** The model of the witness tells the two orders apart: it answers the
    arguments in the order of the call and refuses them in the order of the
    reshapes, and the run on it returns. *)
Example shape_model_orders :
  predict Examples.shape_model Examples.sample_inputs
  = Ok [[0.25%float]; [0.75%float]]
  ∧ predict Examples.shape_model
      [Examples.tensor_of (Examples.flat 64 0.25%float) 32;
       Examples.tensor_of (Examples.flat 64 36.5%float) 32;
       Examples.tensor_of (Examples.flat 512 0.5%float) 256;
       Examples.tensor_of (Examples.flat 512 1%float) 256]
    = Err (ValueError "incompatible input shapes")
  ∧ snd (run (plot_physiological_signals Examples.script_globals
                Examples.shape_world "x_test.pkl" "y_test.pkl"
                Examples.shape_model "S16"))
    = Ok (chart "S16" (Examples.flat 64 0.25%float) [0; 1] [0; 1]).
Proof. repeat split; vm_compute; reflexivity. Qed.
